(** * Chat-export statistics: the ingestion and aggregation core of
      [back_new/stats.py]

    The development embeds the parser ([parse_message] and its helpers),
    the sender canonicaliser ([canonical_sender]), the export-file selection
    ([message_sort_key], [find_exports], [load_chat_records]) and the table
    builder and the aggregations of [compute_stats] that the statements
    below are about, and proves the properties of the specification over
    them.  It goes on with the remaining counts and rankings of
    [compute_stats] and with the summary and activity views of
    [back_new/stats_api.py], and with further properties of all of these.

    Python values are modelled as follows.
    - [str] is a list of Unicode code points ([N]); [py "..."] writes an
      ASCII literal.  Whitespace and the character class of the name
      substitution are those of Python on every code point; the case
      mappings are embedded for the rows of [Str.CASE_TABLE].
    - [None] or a value is an [option]; a [dict] used as a lookup table is a
      [gmap], a [set] a [gset]; a data frame is the list of its rows.
    - A markup node is the record of what the selectors of the parser
      return on it; a directory is the list of its entries in the order the
      file system lists them.
    - [SystemExit] is the [Error] constructor of [result].
    - [pd.to_datetime] is a parameter of the table builder, [str.lower] one
      of the word ranking. *)

From Stdlib Require Import ZArith NArith List String Ascii Lia.
From Stdlib Require Import Sorting.Sorted Sorting.Permutation.
From stdpp Require Import gmap list sorting.

Local Open Scope N_scope.

(** ** Strings *)

Abbreviation str := (list N).

(** An ASCII literal as a Python string. *)
Definition py (s : string) : str :=
  List.map N_of_ascii (list_ascii_of_string s).

Module Str.

(** [str.isspace] for one code point: the characters [str.split()] and
    [str.strip()] treat as whitespace. *)
Definition isspace (c : N) : bool :=
  ((0x09 <=? c) && (c <=? 0x0D)) || ((0x1C <=? c) && (c <=? 0x20))
  || (c =? 0x85) || (c =? 0xA0) || (c =? 0x1680)
  || ((0x2000 <=? c) && (c <=? 0x200A))
  || (c =? 0x2028) || (c =? 0x2029) || (c =? 0x202F) || (c =? 0x205F)
  || (c =? 0x3000).

Fixpoint lstrip (s : str) : str :=
  match s with
  | [] => []
  | c :: s' => if isspace c then lstrip s' else s
  end.

Definition rstrip (s : str) : str := rev (lstrip (rev s)).

(** [s.strip()] *)
Definition strip (s : str) : str := rstrip (lstrip s).

(** [s.split()]: the maximal runs of non-whitespace characters. *)
Fixpoint split (s : str) : list str :=
  match s with
  | [] => []
  | c :: s' =>
      if isspace c then split s'
      else match s' with
           | [] => [[c]]
           | d :: _ =>
               if isspace d then [c] :: split s'
               else match split s' with
                    | tok :: rest => (c :: tok) :: rest
                    | [] => [[c]]
                    end
           end
  end.

(** A regular-expression character class: a list of inclusive ranges
    (a single character is the range from itself to itself). *)
Definition in_class (cls : list (N * N)) (c : N) : bool :=
  existsb (fun r => (fst r <=? c) && (c <=? snd r)) cls.

(** [re.sub("[^cls]", " ", s)] *)
Definition re_sub_not (cls : list (N * N)) (s : str) : str :=
  List.map (fun c => if in_class cls c then c else 0x20) s.

(** *** Case mappings

    The case data of the Unicode character database is embedded for Basic
    Latin, for the Cyrillic letters U+0400 to U+045F and for the pair
    U+0250 / U+2C6F; each row is (first lower-case letter, last lower-case
    letter, first upper-case letter).  Code points outside these rows are
    left unchanged by the mappings below; every statement about
    [canonical_sender] further down either fixes its names or assumes
    them to be ASCII. *)
Definition CASE_TABLE : list (N * N * N) :=
  [ (0x61, 0x7A, 0x41);
    (0x430, 0x44F, 0x410);
    (0x450, 0x45F, 0x400);
    (0x250, 0x250, 0x2C6F) ].

Fixpoint upper_of (tbl : list (N * N * N)) (c : N) : option N :=
  match tbl with
  | [] => None
  | (lo, hi, up) :: tbl' =>
      if (lo <=? c) && (c <=? hi) then Some (up + (c - lo))
      else upper_of tbl' c
  end.

Fixpoint lower_of (tbl : list (N * N * N)) (c : N) : option N :=
  match tbl with
  | [] => None
  | (lo, hi, up) :: tbl' =>
      if (up <=? c) && (c <=? up + (hi - lo)) then Some (lo + (c - up))
      else lower_of tbl' c
  end.

Definition to_title (c : N) : N := default c (upper_of CASE_TABLE c).
Definition to_lower (c : N) : N := default c (lower_of CASE_TABLE c).

Definition is_cased (c : N) : bool :=
  match upper_of CASE_TABLE c, lower_of CASE_TABLE c with
  | None, None => false
  | _, _ => true
  end.

(** [s.casefold()] *)
Definition casefold (s : str) : str := List.map to_lower s.

(** [s.title()], as CPython computes it: a character that follows a cased
    character is lower-cased, any other character is title-cased. *)
Fixpoint do_title (previous_is_cased : bool) (s : str) : str :=
  match s with
  | [] => []
  | c :: s' =>
      (if previous_is_cased then to_lower c else to_title c)
        :: do_title (is_cased c) s'
  end.

Definition title (s : str) : str := do_title false s.

(** [s.startswith(p)] *)
Fixpoint startswith (p s : str) : bool :=
  match p, s with
  | [], _ => true
  | _ :: _, [] => false
  | a :: p', b :: s' => (a =? b) && startswith p' s'
  end.

(** Decimal digits, and [int] of a run of them; [\d] is taken over the
    ASCII digits. *)
Definition isdigit (c : N) : bool := (0x30 <=? c) && (c <=? 0x39).

Definition int_of_digits (ds : str) : N :=
  fold_left (fun acc d => 10 * acc + (d - 0x30)) ds 0.

Fixpoint take_digits (s : str) : str :=
  match s with
  | c :: s' => if isdigit c then c :: take_digits s' else []
  | [] => []
  end.

End Str.

(** ** Sender canonicaliser *)

(** The character class of the substitution in [canonical_sender], item by
    item as it stands in the source: [A-Z], [a-z], U+06AF, the range from
    [?] to U+06AF, U+00F4, U+06AF, the range U+0651 to U+2018, [?], U+06AF,
    [?], U+2018 and the apostrophe. *)
Definition NAME_CLASS : list (N * N) :=
  [ (0x41, 0x5A); (0x61, 0x7A); (0x6AF, 0x6AF); (0x3F, 0x6AF); (0xF4, 0xF4);
    (0x6AF, 0x6AF); (0x651, 0x2018); (0x3F, 0x3F); (0x6AF, 0x6AF);
    (0x3F, 0x3F); (0x2018, 0x2018); (0x27, 0x27) ].

Definition USER_MAP : gmap str str :=
  list_to_map
    [ (py "dias", py "Dias");
      (py "asanali", py "Asanali");
      (py "arseniy", py "Arseniy");
      (py "maxat", py "Maxat");
      (py "maksat", py "Maxat") ].

Definition canonical_sender (name : str) : option str :=
  match name with
  | [] => None
  | _ :: _ =>
      let cleaned := Str.strip (Str.re_sub_not NAME_CLASS name) in
      let parts := Str.split cleaned in
      match parts with
      | [] => None
      | p0 :: _ =>
          let key := Str.casefold p0 in
          Some (default (Str.title p0) (USER_MAP !! key))
      end
  end.

(** ** Markup nodes

    A [RawNode] records what the selectors of [parse_message] return on one
    [div.message] element; a missing element or attribute is [None]. *)

Record Link := {
  href : option str;                 (* link.get("href", "") *)
  onclick : option str               (* link.get("onclick", "") *)
}.

Record RawNode := {
  node_class : list str;             (* msg.get("class", []) *)
  node_id : option str;              (* msg.get("id") *)
  date_div : option (option str);    (* div.pull_right.date.details, and its
                                        title attribute *)
  from_name : option str;            (* div.from_name: get_text(" ", strip=True) *)
  reply_div : option (option Link);  (* div.reply_to, and its first <a> *)
  text_div : option str;             (* div.text: get_text(" ", strip=True) *)
  media_wrap : option (option (list str));
                                     (* div.media_wrap, and the class list of
                                        its first div or a whose class matches
                                        media_ *)
  node_text : str                    (* msg.get_text(" ", strip=True) *)
}.

Record MessageRecord := {
  rec_message_id : option Z;
  rec_date : str;
  rec_sender : str;
  rec_sender_canonical : option str;
  rec_text : str;
  rec_content_type : str;
  rec_reply_to : option Z
}.

Definition MEDIA_TYPE_MAP : gmap str str :=
  list_to_map
    [ (py "media_audio_file", py "audio");
      (py "media_file", py "document");
      (py "media_game", py "game");
      (py "media_live_location", py "live_location");
      (py "media_location", py "location");
      (py "media_photo", py "photo");
      (py "media_poll", py "poll");
      (py "media_video", py "video");
      (py "media_voice_message", py "voice") ].

(** Truth value of an optional string: [None] and the empty string are
    false. *)
Definition truthy (o : option str) : bool :=
  match o with
  | Some (_ :: _) => true
  | _ => false
  end.

(** [re.search(r"(\d+)", s)]: the leftmost maximal run of digits. *)
Fixpoint search_digits (s : str) : option str :=
  match s with
  | [] => None
  | c :: s' =>
      if Str.isdigit c then Some (Str.take_digits s) else search_digits s'
  end.

(** [re.search(r"(-?\d+)", s)] followed by [int]: the leftmost match is a
    digit run, with the minus sign that may stand directly before it. *)
Fixpoint search_signed (s : str) : option Z :=
  match s with
  | [] => None
  | c :: s' =>
      if Str.isdigit c
      then Some (Z.of_N (Str.int_of_digits (Str.take_digits s)))
      else if (c =? 0x2D)
                && match s' with d :: _ => Str.isdigit d | [] => false end
      then Some (Z.opp (Z.of_N (Str.int_of_digits (Str.take_digits s'))))
      else search_signed s'
  end.

Definition extract_reply_to (reply_div : option (option Link)) : option Z :=
  match reply_div with
  | None => None
  | Some None => None
  | Some (Some link) =>
      let candidate :=
        (default [] (href link) ++ [0x20] ++ default [] (onclick link))%list in
      match search_signed candidate with
      | Some n => Some (Z.abs n)
      | None => None
      end
  end.

Definition detect_media_type (media_wrap : option (option (list str)))
  : option str :=
  match media_wrap with
  | None => None
  | Some None => None
  | Some (Some classes) =>
      match
        List.find
          (fun cls => Str.startswith (py "media_") cls
                      && negb (bool_decide (cls = py "media_wrap")))
          classes
      with
      | Some cls => Some (default (py "media") (MEDIA_TYPE_MAP !! cls))
      | None => None
      end
  end.

(** ** Message parser *)

Definition is_service (msg : RawNode) : bool :=
  bool_decide (py "service" ∈ node_class msg).

(** [date_div["title"].strip() if date_div and date_div.has_attr("title")
    else None] *)
Definition date_text (msg : RawNode) : option str :=
  match date_div msg with
  | Some (Some t) => Some (Str.strip t)
  | _ => None
  end.

Definition parse_message (msg : RawNode)
    (last_sender last_sender_canonical : option str)
  : option MessageRecord * option str * option str :=
  let msg_id :=
    if truthy (node_id msg)
    then option_map (fun ds => Z.of_N (Str.int_of_digits ds))
           (search_digits (default [] (node_id msg)))
    else None in
  if negb (truthy (date_text msg))
  then (None, last_sender, last_sender_canonical)
  else
    let sender :=
      match from_name msg with
      | Some s => Some s
      | None => last_sender
      end in
    let sender_canonical :=
      if truthy sender then canonical_sender (default [] sender)
      else last_sender_canonical in
    let sender := if truthy sender then default [] sender else py "Unknown" in
    let reply_to := extract_reply_to (reply_div msg) in
    let text := default [] (text_div msg) in
    let media_type := detect_media_type (media_wrap msg) in
    let '(content_type, text) :=
      if is_service msg
      then (py "service",
            if negb (truthy (Some text)) then node_text msg else text)
      else if truthy media_type then (default [] media_type, text)
      else if truthy (Some text) then (py "text", text)
      else (py "unknown", text) in
    let '(next_sender, next_sender_canonical) :=
      if negb (is_service msg)
      then (Some sender, sender_canonical)
      else (last_sender, last_sender_canonical) in
    (Some
       {| rec_message_id := msg_id;
          rec_date := default [] (date_text msg);
          rec_sender := sender;
          rec_sender_canonical := sender_canonical;
          rec_text := text;
          rec_content_type := content_type;
          rec_reply_to := reply_to |},
     next_sender,
     next_sender_canonical).

(** ** Export-file selection *)

(** A directory: its entries in the order [Path.glob] yields them, each
    with the [div.message] nodes of the document, in document order. *)
Abbreviation Directory := (list (str * list RawNode)).

(** Shell-style matching of a file name against a pattern made of literal
    characters and [*]. *)
Fixpoint glob_match (pat : str) (name : str) {struct pat} : bool :=
  match pat with
  | [] => match name with [] => true | _ :: _ => false end
  | c :: pat' =>
      if c =? 0x2A
      then (fix star (s : str) : bool :=
              glob_match pat' s
              || match s with [] => false | _ :: s' => star s' end) name
      else match name with
           | [] => false
           | d :: name' => (c =? d) && glob_match pat' name'
           end
  end.

(** [directory.glob(pattern)] *)
Definition glob (pattern : str) (directory : Directory) : Directory :=
  List.filter (fun f => glob_match pattern (fst f)) directory.

(** [name.rfind(c)] *)
Fixpoint rfind (c : N) (s : str) : option nat :=
  match s with
  | [] => None
  | d :: s' =>
      match rfind c s' with
      | Some i => Some (S i)
      | None => if d =? c then Some 0%nat else None
      end
  end.

(** [Path.stem]: the name without its last suffix. *)
Definition stem (name : str) : str :=
  match rfind 0x2E name with
  | Some i =>
      if ((0 <? i) && (i <? length name - 1))%nat then take i name else name
  | None => name
  end.

(** [re.match(r"messages(\d+)?", path.stem)], then [int] of the group. *)
Definition message_sort_key (path : str) : N :=
  if Str.startswith (py "messages") (stem path)
  then
    let suffix := Str.take_digits (drop 8 (stem path)) in
    match suffix with
    | [] => 0
    | _ :: _ => Str.int_of_digits suffix
    end
  else 0.

(** [sorted(l, key=...)] is a stable sort: elements that compare equal stay
    in their order.  [stable_sort le] inserts each element before the first
    later element that is not smaller. *)
Fixpoint insert_sorted {A} (le : A -> A -> bool) (x : A) (l : list A)
  : list A :=
  match l with
  | [] => [x]
  | y :: l' => if le x y then x :: l else y :: insert_sorted le x l'
  end.

Definition stable_sort {A} (le : A -> A -> bool) (l : list A) : list A :=
  foldr (insert_sorted le) [] l.

Definition sorted_by {A} (key : A -> N) (l : list A) : list A :=
  stable_sort (fun a b => key a <=? key b) l.

Definition file_key (f : str * list RawNode) : N := message_sort_key (fst f).

Definition find_exports (directory : Directory) : Directory :=
  let candidates := sorted_by file_key (glob (py "messages*.htm*") directory) in
  match candidates with
  | [] => sorted_by file_key (glob (py "*.htm*") directory)
  | _ :: _ => candidates
  end.

(** ** Loading the records *)

Inductive SystemExit :=
| NoExportsFound          (* "No Telegram exports found under ..." *)
| ParsedZeroMessages      (* "Parsed 0 messages. Check the export format." *)
| NoUserMessages.         (* "No user messages found in the export." *)

Inductive result (A : Type) :=
| OK (a : A)
| Error (e : SystemExit).
Arguments OK {A} a.
Arguments Error {A} e.

(** The state of the loop of [load_chat_records]: the records so far and
    the continuation [(last_sender, last_sender_canonical)]. *)
Abbreviation LoopState :=
  (list MessageRecord * option str * option str)%type.

Definition loop_step (st : LoopState) (msg : RawNode) : LoopState :=
  let '(records, last_sender, last_sender_canonical) := st in
  let '(parsed, last_sender, last_sender_canonical) :=
    parse_message msg last_sender last_sender_canonical in
  (match parsed with
   | Some r => (records ++ [r])%list
   | None => records
   end,
   last_sender, last_sender_canonical).

Definition parse_nodes (st : LoopState) (msgs : list RawNode) : LoopState :=
  fold_left loop_step msgs st.

Definition parse_files (files : Directory) : LoopState :=
  fold_left (fun st f => parse_nodes st (snd f)) files ([], None, None).

Definition select_files (UPLOAD_DIR DATA_DIR : Directory) : Directory :=
  let upload_files := find_exports UPLOAD_DIR in
  match upload_files with
  | _ :: _ => upload_files
  | [] => find_exports DATA_DIR
  end.

Definition load_chat_records (UPLOAD_DIR DATA_DIR : Directory)
  : result (list MessageRecord) :=
  let files := select_files UPLOAD_DIR DATA_DIR in
  match files with
  | [] => Error NoExportsFound
  | _ :: _ =>
      let '(records, _, _) := parse_files files in
      match records with
      | [] => Error ParsedZeroMessages
      | _ :: _ => OK records
      end
  end.

(** ** Record table

    A timestamp is a number of seconds on the time line of the parsed
    (naive) date; a calendar day is its day number. *)

Record Row := {
  message_id : option Z;
  date : Z;
  sender : str;
  sender_canonical : str;
  text : str;
  content_type : str;
  reply_to : option Z;
  word_count : nat;
  char_count : nat;
  day : Z;
  hour : Z;
  is_reply : bool
}.

Definition SIX_HOURS : Z := 6 * 3600.      (* timedelta(hours=6) *)

(** [Series.fillna(d)] on one cell. *)
Definition fillna {A} (d : A) (cell : option A) : A := default d cell.

(** [Series.diff()]: no value for the first row. *)
Fixpoint diff_from (prev : Z) (l : list Z) : list (option Z) :=
  match l with
  | [] => []
  | d :: l' => Some (d - prev)%Z :: diff_from d l'
  end.

Definition diff (l : list Z) : list (option Z) :=
  match l with
  | [] => []
  | d :: l' => None :: diff_from d l'
  end.

(** [time_diff > delta]: a missing difference compares false. *)
Definition gt_timedelta (delta : Z) (time_diff : option Z) : bool :=
  match time_diff with
  | Some d => (delta <? d)%Z
  | None => false
  end.

(** Boolean indexing [df[mask]]. *)
Fixpoint select {A} (l : list A) (mask : list bool) : list A :=
  match l, mask with
  | x :: l', b :: mask' => if b then x :: select l' mask' else select l' mask'
  | _, _ => []
  end.

(** [Series.value_counts()] as a table from value to count. *)
Definition value_counts (l : list str) : gmap str nat :=
  foldr (fun k m => <[k := S (default 0%nat (m !! k))]> m) ∅ l.

(** [int(mask.sum())] for the mask [p] over the rows. *)
Definition count_where (p : Row -> bool) (rows : list Row) : nat :=
  length (List.filter p rows).

(** [pd.date_range(lo, hi)]: every day from [lo] to [hi], both included. *)
Definition date_range (lo hi : Z) : list Z := seqZ lo (hi - lo + 1).

Record StatsResult := {
  res_df : list Row;
  res_user_df : list Row;
  res_starters_per_user : gmap str nat;
  res_inactive_days : list Z;
  res_total_messages : nat;
  res_user_messages : nat;
  res_length_distribution : list (str * nat)
}.

Section Table.

(** [pd.to_datetime(text, errors="coerce", dayfirst=True)] on one cell;
    [None] stands for a date that does not parse. *)
Variable to_datetime : str -> option Z.

(** One record through the column derivations of [compute_stats]; [None]
    for a row that [dropna(subset=["date"])] removes. *)
Definition build_row (r : MessageRecord) : option Row :=
  match to_datetime (rec_date r) with
  | None => None
  | Some d =>
      let sender_cell : option str := Some (rec_sender r) in
      let applied := sender_cell ≫= canonical_sender in
      Some
        {| message_id := rec_message_id r;
           date := d;
           sender := rec_sender r;
           sender_canonical := fillna (fillna (py "Unknown") sender_cell) applied;
           text := rec_text r;
           content_type := rec_content_type r;
           reply_to := rec_reply_to r;
           word_count := length (Str.split (rec_text r));
           char_count := length (rec_text r);
           day := (d / 86400)%Z;
           hour := ((d mod 86400) / 3600)%Z;
           is_reply := bool_decide (is_Some (rec_reply_to r)) |}
  end.

Definition build_table (records : list MessageRecord) : list Row :=
  omap build_row records.

End Table.

(** The participant subset. *)
Definition user_df (df : list Row) : list Row :=
  List.filter (fun r => truthy (Some (sender_canonical r)))
    (List.filter
       (fun r => negb (bool_decide (content_type r = py "service"))) df).

(** [user_df.sort_values("date")].  Rows with equal timestamps are kept in
    table order here; pandas leaves their order open, and the statements
    about the sorted table below hold for every ascending arrangement. *)
Definition sort_values (rows : list Row) : list Row :=
  stable_sort (fun a b => (date a <=? date b)%Z) rows.

Definition time_diff (df_sorted : list Row) : list (option Z) :=
  diff (List.map date df_sorted).

Definition starter_mask (df_sorted : list Row) : list bool :=
  List.map (gt_timedelta SIX_HOURS) (time_diff df_sorted).

Definition conversation_starters (df_sorted : list Row) : list Row :=
  select df_sorted (starter_mask df_sorted).

(** [conversation_starters["sender_canonical"].value_counts()] *)
Definition starters_per_user (df_sorted : list Row) : gmap str nat :=
  value_counts (List.map sender_canonical (conversation_starters df_sorted)).

Definition length_distribution (rows : list Row) : list (str * nat) :=
  [ (py "0-10", count_where (fun r => word_count r <=? 10)%nat rows);
    (py "11-50",
     count_where
       (fun r => (10 <? word_count r) && (word_count r <=? 50))%nat rows);
    (py "51-100",
     count_where
       (fun r => (50 <? word_count r) && (word_count r <=? 100))%nat rows);
    (py "100-500",
     count_where
       (fun r => (100 <? word_count r) && (word_count r <=? 500))%nat rows);
    (py "500+", count_where (fun r => (500 <? word_count r)%nat) rows) ].

(** Smallest and largest element of a non-empty column. *)
Definition col_min (d : Z) (ds : list Z) : Z := fold_left Z.min ds d.
Definition col_max (d : Z) (ds : list Z) : Z := fold_left Z.max ds d.

Definition inactive_days (rows : list Row) : list Z :=
  match List.map day rows with
  | [] => []
  | d :: ds =>
      let all_days := date_range (col_min d ds) (col_max d ds) in
      merge_sort Z.le
        (elements ((list_to_set all_days : gset Z) ∖ list_to_set (d :: ds)))
  end.

(** The part of [compute_stats] that follows the construction of the
    table, with the aggregations the statements below are about. *)
Definition aggregate (df : list Row) : result StatsResult :=
  let users := user_df df in
  match users with
  | [] => Error NoUserMessages
  | _ :: _ =>
      OK {| res_df := df;
            res_user_df := users;
            res_starters_per_user := starters_per_user (sort_values users);
            res_inactive_days := inactive_days users;
            res_total_messages := length df;
            res_user_messages := length users;
            res_length_distribution := length_distribution users |}
  end.


(** ** Further aggregations of [compute_stats]

    A series is modelled by the table from its index to its values; the
    order of its entries (by key after [groupby], by count after
    [sort_values]) is not part of the table. *)

(** [groupby(key).size()] and [value_counts()] on a column: the table from
    each value that occurs to the number of its rows. *)
Definition groupby_size `{Countable K} (column : list K) : gmap K nat :=
  foldr (fun k m => <[k := S (default 0%nat (m !! k))]> m) ∅ column.

(** [groupby(key)[col].sum()] for a boolean column [col]. *)
Definition groupby_sum `{Countable K} (column : list (K * bool))
  : gmap K nat :=
  foldr (fun (kb : K * bool) (m : gmap K nat) =>
           <[fst kb := ((if snd kb then 1 else 0)
                        + default 0 (m !! fst kb))%nat]> m)
    ∅ column.

(** [series.sum()] *)
Definition series_sum `{Countable K} (series : gmap K nat) : nat :=
  map_fold (fun _ v acc => (v + acc)%nat) 0%nat series.

Definition messages_per_user (user_df : list Row) : gmap str nat :=
  groupby_size (List.map sender_canonical user_df).

Definition messages_per_day (user_df : list Row) : gmap Z nat :=
  groupby_size (List.map day user_df).

Definition messages_per_hour (user_df : list Row) : gmap Z nat :=
  groupby_size (List.map hour user_df).

Definition replies_per_user (user_df : list Row) : gmap str nat :=
  groupby_sum (List.map (fun r => (sender_canonical r, is_reply r)) user_df).

(** The dictionary [content_types], as the list of its two items. *)
Definition content_types (user_df : list Row) : list (str * nat) :=
  let type_counts := value_counts (List.map content_type user_df) in
  let text_count := default 0%nat (type_counts !! py "text") in
  let other_count := (series_sum type_counts - text_count)%nat in
  [ (py "text", text_count); (py "other", other_count) ].

Definition WEEKDAY_ORDER : list str :=
  [ py "Monday"; py "Tuesday"; py "Wednesday"; py "Thursday"; py "Friday";
    py "Saturday"; py "Sunday" ].

(** [date.dt.day_name()]: timestamp 0 is the start of 1 January 1970, a
    Thursday. *)
Definition day_name (d : Z) : str :=
  nth (Z.to_nat ((d / 86400 + 3) mod 7)) WEEKDAY_ORDER [].

(** [groupby(day_name).size().reindex(WEEKDAY_ORDER, fill_value=0)], as
    the list of the items of the dictionary built from it. *)
Definition weekday_counts (user_df : list Row) : list (str * nat) :=
  let series := groupby_size (List.map (fun r => day_name (date r)) user_df) in
  List.map (fun name => (name, default 0%nat (series !! name))) WEEKDAY_ORDER.

(** The order of Python strings: lexicographic on the code points. *)
Fixpoint str_leb (a b : str) : bool :=
  match a, b with
  | [], _ => true
  | _ :: _, [] => false
  | x :: a', y :: b' => (x <? y) || ((x =? y) && str_leb a' b')
  end.

(** [Series.unique()]: the values in the order of their first
    occurrence. *)
Fixpoint unique (l : list str) : list str :=
  match l with
  | [] => []
  | x :: l' =>
      x :: List.filter (fun y => negb (bool_decide (y = x))) (unique l')
  end.

(** [meta["users"]]: [sorted(user_df["sender_canonical"].unique())] *)
Definition meta_users (user_df : list Row) : list str :=
  stable_sort str_leb (unique (List.map sender_canonical user_df)).

(** *** Counters *)

(** A [Counter] is a dictionary: its items in insertion order.  [bump]
    counts one more occurrence of [k]. *)
Fixpoint bump (k : str) (c : list (str * nat)) : list (str * nat) :=
  match c with
  | [] => [(k, 1%nat)]
  | (k', n) :: c' =>
      if bool_decide (k' = k) then (k', S n) :: c' else (k', n) :: bump k c'
  end.

Definition Counter (l : list str) : list (str * nat) :=
  fold_left (fun c k => bump k c) l [].

(** The count a counter holds for a key, 0 for a key it does not hold. *)
Definition counter_get (k : str) (c : list (str * nat)) : nat :=
  match List.find (fun p => bool_decide (fst p = k)) c with
  | Some p => snd p
  | None => 0%nat
  end.

(** The number of occurrences of [k] in [l]. *)
Definition occurrences (k : str) (l : list str) : nat :=
  length (List.filter (fun x => bool_decide (x = k)) l).

(** [counter.most_common(n)]: the [n] first items by descending count,
    items of equal count in insertion order. *)
Definition most_common (n : nat) (c : list (str * nat))
  : list (str * nat) :=
  take n (stable_sort (fun a b => (snd b <=? snd a)%nat) c).

Definition EMOJI_PATTERN : list (N * N) :=
  [ (0x1F600, 0x1F64F); (0x1F300, 0x1F5FF); (0x1F680, 0x1F6FF);
    (0x1F1E0, 0x1F1FF) ].

(** [re.findall] for a pattern that is one character class: every
    character of the class, as a string of its own. *)
Definition findall_char (cls : list (N * N)) (s : str) : list str :=
  List.map (fun c => [c]) (List.filter (Str.in_class cls) s).

(** [re.findall] for a class followed by [+]: the maximal runs of
    characters of the class. *)
Fixpoint findall_plus (cls : list (N * N)) (s : str) : list str :=
  match s with
  | [] => []
  | c :: s' =>
      if Str.in_class cls c
      then match s' with
           | [] => [[c]]
           | d :: _ =>
               if Str.in_class cls d
               then match findall_plus cls s' with
                    | tok :: rest => (c :: tok) :: rest
                    | [] => [[c]]
                    end
               else [c] :: findall_plus cls s'
           end
      else findall_plus cls s'
  end.

Definition emojis (user_df : list Row) : list str :=
  concat (List.map (fun r => findall_char EMOJI_PATTERN (text r)) user_df).

Definition top_emojis (user_df : list Row) : list (str * nat) :=
  most_common 10 (Counter (emojis user_df)).

(** The class of [WORD_REGEX], written with the same characters as the
    class of the substitution in [canonical_sender]. *)
Definition WORD_REGEX : list (N * N) :=
  [ (0x41, 0x5A); (0x61, 0x7A); (0x6AF, 0x6AF); (0x3F, 0x6AF); (0xF4, 0xF4);
    (0x6AF, 0x6AF); (0x651, 0x2018); (0x3F, 0x3F); (0x6AF, 0x6AF);
    (0x3F, 0x3F); (0x2018, 0x2018); (0x27, 0x27) ].

Definition STOPWORDS : gset str :=
  list_to_set
  [
    py "the"; py "a"; py "to"; py "is"; py "it"; py "of"; py "for"; py "in";
    py "that"; py "and"; py "you"; py "me"; py "i"; py "my"; py "we";
    py "our"; py "ya"; [0x6AF; 0x3F; 0x6AF; 0x651];
    [0x6AF; 0x3F; 0x6AF; 0xE7; 0x2018; 0x27]; [0x6AF; 0x3F; 0x6AF; 0x3F];
    [0x6AF; 0x3F; 0x6AF; 0x3F; 0x6AF; 0x651];
    [0x6AF; 0x3F; 0x6AF; 0x3F; 0x6AF; 0x64C]; [0x6AF; 0x3F; 0x2018; 0x3C];
    [0x6AF; 0x3F; 0x2018; 0x3C]; [0x2018; 0x3F; 0x2018; 0x27; 0x6AF; 0x3F];
    [0x6AF; 0x64E; 0x6AF; 0x651; 0x6AF; 0x64E];
    [0x2018; 0x27; 0x6AF; 0x651; 0x6AF; 0x64E]; [0x6AF; 0x3F; 0x6AF; 0x3F];
    [0x6AF; 0x651]; [0x2018; 0x27; 0x6AF; 0x3F]; [0x6AF; 0x64F; 0x6AF; 0x3F];
    [0x6AF; 0x64E]; [0x6AF; 0x64C; 0x6AF; 0x652]; [0x2018; 0x3F];
    [0x6AF; 0x652; 0x6AF; 0x651]; [0x6AF; 0x3F; 0x6AF; 0x3F];
    [0x6AF; 0x3F; 0x6AF; 0xE7]; [0x2018; 0x637; 0x2018; 0x27; 0x6AF; 0x3F];
    [0x6AF; 0x3F]; [0x6AF; 0x3F; 0x6AF; 0x651]
  ].

Section Words.

(** [str.lower] is a parameter of the word statistics. *)
Variable lower : str -> str.

Definition extract_words (text : str) : list str :=
  findall_plus WORD_REGEX (lower text).

Definition all_words (user_df : list Row) : list str :=
  concat (List.map (fun r => extract_words (text r)) user_df).

Definition filtered_words (user_df : list Row) : list str :=
  List.filter
    (fun w => negb (bool_decide (w ∈ STOPWORDS)) && (2 <? length w)%nat)
    (all_words user_df).

Definition top_words (user_df : list Row) : list (str * nat) :=
  most_common 20 (Counter (filtered_words user_df)).

End Words.

(** [str(n)] for a natural number: its decimal numeral.  Conversions
    between numbers and numerals are taken without CPython's limit on the
    number of digits. *)
Fixpoint decimal_aux (fuel : nat) (n : N) (acc : str) : str :=
  match fuel with
  | O => acc
  | S fuel' =>
      let acc' := (0x30 + n mod 10) :: acc in
      if n <? 10 then acc' else decimal_aux fuel' (n / 10) acc'
  end.

Definition decimal (n : N) : str :=
  decimal_aux (S (N.to_nat (N.log2 n))) n [].

(** ** The summary and activity views of [stats_api.py]

    The views read the cached statistics, a JSON object; an entry of one of
    its lists is the record of what [entry.get] finds, [None] for a missing
    key. *)

Record DayEntry := {
  entry_day : option str;            (* entry.get("day") *)
  entry_value : option Z             (* entry.get("value") *)
}.

Record HourEntry := {
  entry_hour : option Z;             (* entry.get("hour") *)
  entry_count : option Z             (* entry.get("value") *)
}.

Record Meta := {
  meta_user_messages : option Z;     (* meta.get("user_messages") *)
  meta_users_list : option (list str)  (* meta.get("users") *)
}.

Record Stats := {
  stats_meta : option Meta;          (* stats.get("meta") *)
  stats_messages_per_day : option (list DayEntry);
                                     (* stats.get("messages_per_day") *)
  stats_messages_per_hour : option (list HourEntry)
                                     (* stats.get("messages_per_hour") *)
}.

Record Summary := {
  totalMessages : Z;
  totalUsers : nat;
  activeDays : nat;
  peakActivityDate : str;
  peakMessageCount : Z
}.

(** One round of the loop of [_build_summary] over the state
    [(peak_day, peak_count)]. *)
Definition peak_step (st : str * Z) (entry : DayEntry) : str * Z :=
  let '(peak_day, peak_count) := st in
  let count := default 0%Z (entry_value entry) in
  if (peak_count <? count)%Z
  then (default [] (entry_day entry), count)
  else (peak_day, peak_count).

Definition _build_summary (stats : Stats) : Summary :=
  let meta :=
    default {| meta_user_messages := None; meta_users_list := None |}
      (stats_meta stats) in
  let messages_per_day := default [] (stats_messages_per_day stats) in
  let '(peak_day, peak_count) :=
    fold_left peak_step messages_per_day ([], 0%Z) in
  {| totalMessages := default 0%Z (meta_user_messages meta);
     totalUsers := length (default [] (meta_users_list meta));
     activeDays :=
       length
         (List.filter (fun entry => (0 <? default 0 (entry_value entry))%Z)
            messages_per_day);
     peakActivityDate := peak_day;
     peakMessageCount := peak_count |}.

(** The dictionary [hourly_map] of [get_activity]: a later entry of an
    hour replaces an earlier one. *)
Definition hourly_map (entries : list HourEntry) : gmap (option Z) Z :=
  fold_left
    (fun m entry => <[entry_hour entry := default 0%Z (entry_count entry)]> m)
    entries ∅.

(** The list [hourly] of [get_activity]: hour, label and count. *)
Definition hourly (stats : Stats) : list (Z * str * Z) :=
  let m := hourly_map (default [] (stats_messages_per_hour stats)) in
  List.map
    (fun hour =>
       (hour, (decimal (Z.to_N hour) ++ py ":00")%list,
        default 0%Z (m !! Some hour)))
    (seqZ 0 24).

(** ** Vocabulary of the statements *)

(** The continuation a call of [parse_message] hands to the next node, and
    the record it yields. *)
Definition continuation (res : option MessageRecord * option str * option str)
  : option str * option str :=
  (snd (fst res), snd res).

Definition record_of (res : option MessageRecord * option str * option str)
  : option MessageRecord :=
  fst (fst res).

(** The sender element of the node, or the inherited sender. *)
Definition attributed_sender (msg : RawNode) (ls : option str) : option str :=
  match from_name msg with
  | Some s => Some s
  | None => ls
  end.

(** The node carries no timestamp: the date element or its title attribute
    is missing, or the title is empty once stripped. *)
Definition no_timestamp (msg : RawNode) : Prop :=
  date_div msg = None \/ date_div msg = Some None
  \/ exists t, date_div msg = Some (Some t) /\ Str.strip t = [].

(** A node the continuation passes through: a service node, or a node
    without timestamp. *)
Definition transparent (msg : RawNode) : Prop :=
  is_service msg = true \/ no_timestamp msg.


(** The files of a directory that match the primary pattern, those that
    match the markup pattern, and the ones the selection keeps. *)
Definition primary_files (directory : Directory) : Directory :=
  glob (py "messages*.htm*") directory.

Definition markup_files (directory : Directory) : Directory :=
  glob (py "*.htm*") directory.

Definition selected (directory : Directory) : Directory :=
  match primary_files directory with
  | [] => markup_files directory
  | _ :: _ => primary_files directory
  end.

(** The word-count ranges of the length distribution: lower bound and
    upper bound (none for the last range), both included. *)
Definition BUCKETS : list (nat * option nat) :=
  [ (0, Some 10); (11, Some 50); (51, Some 100); (101, Some 500);
    (501, None) ]%nat.

Definition in_bucket (b : nat * option nat) (n : nat) : bool :=
  ((fst b <=? n) && match snd b with Some hi => n <=? hi | None => true end)%nat.

(** A record with another canonical identity. *)
Definition with_canonical (c : option str) (r : MessageRecord)
  : MessageRecord :=
  {| rec_message_id := rec_message_id r;
     rec_date := rec_date r;
     rec_sender := rec_sender r;
     rec_sender_canonical := c;
     rec_text := rec_text r;
     rec_content_type := rec_content_type r;
     rec_reply_to := rec_reply_to r |}.

(** Earliest and latest day of a table (0 for the empty table). *)
Definition first_day (rows : list Row) : Z :=
  match List.map day rows with
  | [] => 0%Z
  | d :: ds => col_min d ds
  end.

Definition last_day (rows : list Row) : Z :=
  match List.map day rows with
  | [] => 0%Z
  | d :: ds => col_max d ds
  end.

(** The set of days on which the table has a row. *)
Definition active_days (rows : list Row) : gset Z :=
  list_to_set (List.map day rows).

(** The code points on which the case mappings above are those of the
    Unicode database and that the class of the substitution keeps closed:
    Basic Latin and the Cyrillic letters U+0400 to U+045F. *)
Definition in_repertoire (c : N) : bool :=
  (c <? 0x80) || ((0x400 <=? c) && (c <=? 0x45F)).

Definition REPERTOIRE : list N :=
  List.map N.of_nat (seq 0 128 ++ seq 1024 96).

(** A name written in Latin and Cyrillic letters, digits and ASCII
    punctuation. *)
Definition plain_name (s : str) : Prop :=
  Forall (fun c => in_repertoire c = true) s.

(** A character that a token of such a name can contain: no whitespace,
    inside the class of the substitution, in the repertoire. *)
Definition token_char (c : N) : bool :=
  negb (Str.isspace c) && Str.in_class NAME_CLASS c && in_repertoire c.

(** What the proofs need of the case mappings on one character. *)
Definition case_facts_at (c : N) : bool :=
  let t := Str.to_title c in
  let l := Str.to_lower c in
  in_repertoire t && in_repertoire l
  && Bool.eqb (Str.is_cased t) (Str.is_cased c)
  && Bool.eqb (Str.is_cased l) (Str.is_cased c)
  && (Str.to_title t =? t) && (Str.to_lower l =? l) && (Str.to_lower t =? l)
  && implb (token_char c) (token_char t && token_char l).

(** A character of a name that [canonical_sender] keeps and that is no
    whitespace. *)
Definition name_char (c : N) : bool :=
  Str.in_class NAME_CLASS c && negb (Str.isspace c).

(** The string in which [extract_reply_to] searches the target. *)
Definition reply_candidate (link : Link) : str :=
  (default [] (href link) ++ [0x20] ++ default [] (onclick link))%list.

(** The values the [content_type] of a record can take. *)
Definition CONTENT_TYPES : list str :=
  [ py "service"; py "text"; py "unknown"; py "media";
    py "audio"; py "document"; py "game"; py "live_location";
    py "location"; py "photo"; py "poll"; py "video"; py "voice" ].

(** The timestamp of a node that has one. *)
Definition timestamp_of (msg : RawNode) : option str :=
  if truthy (date_text msg) then date_text msg else None.

(** All nodes of a list of files, in reading order. *)
Definition all_nodes (files : Directory) : list RawNode :=
  concat (List.map snd files).

(** A string that is one word: not empty, without whitespace. *)
Definition is_word (s : str) : Prop :=
  s <> [] /\ Forall (fun c => Str.isspace c = false) s.

(** What every record of the parser satisfies. *)
Record wellformed (r : MessageRecord) : Prop := {
  wf_sender : rec_sender r <> [];
  wf_date : rec_date r <> [] /\ Str.strip (rec_date r) = rec_date r;
  wf_canonical : forall c, rec_sender_canonical r = Some c -> is_word c;
  wf_message_id : forall n, rec_message_id r = Some n -> (0 <= n)%Z;
  wf_reply_to : forall n, rec_reply_to r = Some n -> (0 <= n)%Z;
  wf_content_type : In (rec_content_type r) CONTENT_TYPES
}.

(** What the loop of [_build_summary] has found after the entries [l]. *)
Definition peak_of (l : list DayEntry) (st : str * Z) : Prop :=
  let '(peak_day, peak_count) := st in
  (forall e, In e l -> (default 0 (entry_value e) <= peak_count)%Z)
  /\ ((peak_count = 0%Z /\ peak_day = [])
      \/ exists i e,
           l !! i = Some e
           /\ default 0%Z (entry_value e) = peak_count
           /\ default [] (entry_day e) = peak_day
           /\ (0 < peak_count)%Z
           /\ forall j e', (j < i)%nat -> l !! j = Some e' ->
                           (default 0 (entry_value e') < peak_count)%Z).

(** ** Sample data

    A small export, used to run the definitions on concrete input. *)

Definition sample_first : RawNode :=
  {| node_class := [py "message"; py "default"; py "clearfix"];
     node_id := Some (py "message101");
     date_div := Some (Some (py "01.02.2024 10:00:00"));
     from_name := Some (py "Dias K.");
     reply_div := None;
     text_div := Some (py "hello there");
     media_wrap := None;
     node_text := py "10:00 Dias K. hello there" |}.

Definition sample_service : RawNode :=
  {| node_class := [py "message"; py "service"];
     node_id := Some (py "message-1");
     date_div := None;
     from_name := None;
     reply_div := None;
     text_div := None;
     media_wrap := None;
     node_text := py "1 February 2024" |}.

Definition sample_last : RawNode :=
  {| node_class := [py "message"; py "default"; py "clearfix"; py "joined"];
     node_id := Some (py "message102");
     date_div := Some (Some (py "01.02.2024 10:01:00"));
     from_name := None;
     reply_div := None;
     text_div := Some (py "again");
     media_wrap := None;
     node_text := py "10:01 again" |}.

Definition sample_photo : RawNode :=
  {| node_class := [py "message"; py "default"; py "clearfix"];
     node_id := Some (py "message103");
     date_div := Some (Some (py "01.02.2024 10:02:00"));
     from_name := Some (py "Asanali");
     reply_div :=
       Some (Some {| href := Some (py "#go_to_message101");
                     onclick := Some (py "return GoToMessage(101)") |});
     text_div := None;
     media_wrap :=
       Some (Some [py "media"; py "clearfix"; py "pull_left";
                   py "media_photo"]);
     node_text := py "10:02 Asanali Photo" |}.

(** A node whose sender element is present but holds no text. *)
Definition sample_blank_sender : RawNode :=
  {| node_class := [py "message"; py "default"; py "clearfix"];
     node_id := Some (py "message104");
     date_div := Some (Some (py "01.02.2024 10:03:00"));
     from_name := Some [];
     reply_div := None;
     text_div := Some (py "ok");
     media_wrap := None;
     node_text := py "10:03 ok" |}.

(** A node whose title attribute holds blanks only. *)
Definition sample_blank_date : RawNode :=
  {| node_class := [py "message"; py "default"; py "clearfix"];
     node_id := Some (py "message105");
     date_div := Some (Some (py "   "));
     from_name := Some (py "Arseniy");
     reply_div := None;
     text_div := Some (py "lost");
     media_wrap := None;
     node_text := py "Arseniy lost" |}.

Definition sample_directory : Directory :=
  [ (py "messages10.html", [sample_photo]);
    (py "notes.html", [sample_blank_sender]);
    (py "messages.html", [sample_first; sample_service]);
    (py "messages2.html", [sample_last]) ].

Definition sample_row (d : Z) (who kind : str) (words : nat) : Row :=
  {| message_id := None;
     date := d;
     sender := who;
     sender_canonical := who;
     text := [];
     content_type := kind;
     reply_to := None;
     word_count := words;
     char_count := 0;
     day := (d / 86400)%Z;
     hour := ((d mod 86400) / 3600)%Z;
     is_reply := false |}.

(** Day 0 at 09:00, 09:30, 10:00 and 20:00, then days 2 and 5. *)
Definition sample_df : list Row :=
  [ sample_row 32400 (py "Dias") (py "text") 3;
    sample_row 34200 (py "Maxat") (py "text") 12;
    sample_row 36000 (py "Dias") (py "photo") 60;
    sample_row 50000 (py "Dias") (py "service") 4;
    sample_row 72000 (py "Maxat") (py "text") 2;
    sample_row 172900 (py "Dias") (py "text") 120;
    sample_row 432050 (py "Asanali") (py "text") 600 ].

(** A record as the parser returns it. *)
Definition sample_record : MessageRecord :=
  {| rec_message_id := Some 101%Z;
     rec_date := py "01.02.2024 10:00:00";
     rec_sender := py "Dias K.";
     rec_sender_canonical := Some (py "Dias");
     rec_text := py "hello there";
     rec_content_type := py "text";
     rec_reply_to := None |}.

(** * Properties *)

(** ** The parser *)

Lemma truthy_true (o : option str) :
  truthy o = true <-> exists c s, o = Some (c :: s).
Proof.
  destruct o as [[|c s]|]; simpl; split; intros H;
    try discriminate; try (destruct H as (c' & s' & H); discriminate);
    eauto.
Qed.

Lemma truthy_false (o : option str) :
  truthy o = false <-> o = None \/ o = Some [].
Proof.
  destruct o as [[|c s]|]; simpl; split; intros H;
    try discriminate; try (destruct H as [H|H]; discriminate); eauto.
Qed.

(** [parse_message] in one equation: the record and the continuation it
    returns on a node with a timestamp, and the rejection otherwise. *)
Lemma parse_message_eq msg ls lc :
  parse_message msg ls lc =
  if truthy (date_text msg) then
    let sender := attributed_sender msg ls in
    let body := default [] (text_div msg) in
    (Some
       {| rec_message_id :=
            if truthy (node_id msg)
            then option_map (fun ds => Z.of_N (Str.int_of_digits ds))
                   (search_digits (default [] (node_id msg)))
            else None;
          rec_date := default [] (date_text msg);
          rec_sender := if truthy sender then default [] sender else py "Unknown";
          rec_sender_canonical :=
            if truthy sender then canonical_sender (default [] sender) else lc;
          rec_text :=
            if is_service msg && negb (truthy (Some body)) then node_text msg
            else body;
          rec_content_type :=
            if is_service msg then py "service"
            else if truthy (detect_media_type (media_wrap msg))
                 then default [] (detect_media_type (media_wrap msg))
                 else if truthy (Some body) then py "text" else py "unknown";
          rec_reply_to := extract_reply_to (reply_div msg) |},
     if is_service msg then ls
     else Some (if truthy sender then default [] sender else py "Unknown"),
     if is_service msg then lc
     else if truthy sender then canonical_sender (default [] sender) else lc)
  else (None, ls, lc).
Proof.
  unfold parse_message, attributed_sender.
  destruct (truthy (date_text msg)); [|reflexivity].
  cbn [negb].
  destruct (is_service msg); cbn [negb andb].
  - destruct (truthy (Some (default [] (text_div msg)))); reflexivity.
  - destruct (truthy (detect_media_type (media_wrap msg))); [reflexivity|].
    destruct (truthy (Some (default [] (text_div msg)))); reflexivity.
Qed.

Lemma no_timestamp_truthy msg :
  no_timestamp msg <-> truthy (date_text msg) = false.
Proof.
  unfold no_timestamp, date_text. rewrite truthy_false.
  destruct (date_div msg) as [[t|]|]; split; intros H.
  - destruct H as [H|[H|(t' & [= <-] & H)]]; try discriminate.
    right. congruence.
  - destruct H as [H|[= H]]; [discriminate|]. right; right. eauto.
  - auto.
  - auto.
  - auto.
  - auto.
Qed.

(** A service node passes the continuation through. *)
Lemma parse_message_service msg ls lc :
  is_service msg = true ->
  continuation (parse_message msg ls lc) = (ls, lc).
Proof.
  intros Hs. rewrite parse_message_eq. unfold continuation.
  destruct (truthy (date_text msg)); cbn; [|reflexivity].
  rewrite Hs. reflexivity.
Qed.

(** So does a node without timestamp, and any run of such nodes in the
    loop. *)
Lemma parse_message_transparent msg ls lc :
  transparent msg ->
  continuation (parse_message msg ls lc) = (ls, lc).
Proof.
  intros [Hs|Hn]; [apply parse_message_service, Hs|].
  apply no_timestamp_truthy in Hn.
  rewrite parse_message_eq, Hn. reflexivity.
Qed.

Lemma parse_nodes_transparent between : forall records ls lc,
  Forall transparent between ->
  exists records',
    parse_nodes (records, ls, lc) between = (records', ls, lc).
Proof.
  induction between as [|m between IH]; intros records ls lc Hall.
  - exists records. reflexivity.
  - inversion Hall as [|? ? Hm Hrest]; subst.
    unfold parse_nodes. cbn [fold_left loop_step].
    pose proof (parse_message_transparent m ls lc Hm) as Hk.
    unfold continuation in Hk.
    destruct (parse_message m ls lc) as [[parsed ls'] lc'].
    cbn in Hk. injection Hk as -> ->.
    apply (IH _ ls lc Hrest).
Qed.

Lemma parse_nodes_app st l1 l2 :
  parse_nodes st (l1 ++ l2) = parse_nodes (parse_nodes st l1) l2.
Proof. unfold parse_nodes. apply fold_left_app. Qed.

Lemma canonical_sender_Dias_K :
  canonical_sender (py "Dias K.") = Some (py "Dias").
Proof. vm_compute. reflexivity. Qed.

(** C1: the continuation (last sender, last canonical identity) changes
    only at a message that is not a service message and yields a record,
    where it becomes the attribution of that record; a service message,
    like a rejected node, returns it unchanged.  Hence, in the loop over the
    nodes, a node without sender element that follows a non-service node of
    sender "Dias K." (both carrying a timestamp, so that both yield a
    record) is attributed the canonical identity "Dias", also when service
    nodes, or nodes without timestamp, lie between the two. *)
Theorem parse_message_continuation :
  (forall msg ls lc,
     continuation (parse_message msg ls lc)
     = match record_of (parse_message msg ls lc) with
       | Some r =>
           if is_service msg then (ls, lc)
           else (Some (rec_sender r), rec_sender_canonical r)
       | None => (ls, lc)
       end)
  /\ (forall first between last records ls lc,
        is_service first = false ->
        ~ no_timestamp first ->
        from_name first = Some (py "Dias K.") ->
        Forall transparent between ->
        from_name last = None ->
        ~ no_timestamp last ->
        exists records' r,
          parse_nodes (records, ls, lc) (first :: between ++ [last])
          = ((records' ++ [r])%list, Some (py "Dias K."), Some (py "Dias"))
          /\ rec_sender r = py "Dias K."
          /\ rec_sender_canonical r = Some (py "Dias")).
Proof.
  split.
  - intros msg ls lc. rewrite parse_message_eq.
    unfold continuation, record_of.
    destruct (truthy (date_text msg)); cbn; [|reflexivity].
    destruct (is_service msg); reflexivity.
  - intros first between last records ls lc Hns Hd1 Hfrom Hsv Hnone Hd3.
    rewrite no_timestamp_truthy in Hd1, Hd3.
    apply not_false_is_true in Hd1, Hd3.
    change (first :: between ++ [last])%list
      with ([first] ++ (between ++ [last]))%list.
    rewrite !parse_nodes_app.
    assert (H1 : exists r1,
               parse_nodes (records, ls, lc) [first]
               = ((records ++ [r1])%list, Some (py "Dias K."), Some (py "Dias"))).
    { unfold parse_nodes. cbn [fold_left loop_step].
      rewrite parse_message_eq, Hd1, Hns. unfold attributed_sender.
      rewrite Hfrom. cbn [truthy py].
      change (default [] (Some (py "Dias K."))) with (py "Dias K.").
      rewrite canonical_sender_Dias_K. cbv zeta.
      eexists. reflexivity. }
    destruct H1 as (r1 & ->).
    destruct (parse_nodes_transparent between (records ++ [r1])%list
                (Some (py "Dias K.")) (Some (py "Dias")) Hsv) as (recs2 & ->).
    unfold parse_nodes. cbn [fold_left loop_step].
    rewrite parse_message_eq, Hd3. unfold attributed_sender. rewrite Hnone.
    change (truthy (Some (py "Dias K."))) with true. cbv iota zeta.
    change (default [] (Some (py "Dias K."))) with (py "Dias K.").
    rewrite canonical_sender_Dias_K.
    destruct (is_service last);
      (eexists recs2, _; split; [reflexivity|split; reflexivity]).
Qed.



(** A detected media type is never the empty string, so the test
    [elif media_type] succeeds exactly when one was detected. *)
Lemma MEDIA_TYPE_MAP_nonempty cls :
  default (py "media") (MEDIA_TYPE_MAP !! cls) <> [].
Proof.
  destruct (MEDIA_TYPE_MAP !! cls) as [v|] eqn:E; cbn; [|discriminate].
  unfold MEDIA_TYPE_MAP in E. apply elem_of_list_to_map_2 in E.
  repeat (apply elem_of_cons in E as [E|E];
          [injection E as _ ->; vm_compute; discriminate|]).
  apply elem_of_nil in E. destruct E.
Qed.

Lemma detect_media_type_truthy mw m :
  detect_media_type mw = Some m -> truthy (Some m) = true.
Proof.
  unfold detect_media_type. destruct mw as [[classes|]|]; try discriminate.
  destruct (List.find _ classes) as [cls|]; [|discriminate].
  intros [= <-]. pose proof (MEDIA_TYPE_MAP_nonempty cls) as H.
  destruct (default (py "media") (MEDIA_TYPE_MAP !! cls)); [congruence|reflexivity].
Qed.

(** C4: the content type of a parsed node is resolved by the first match:
    "service" for a service node, whose empty body text is replaced by the
    text content of the whole node; otherwise the detected media type;
    otherwise "text" when the text is not empty; otherwise "unknown". *)
Theorem content_type_resolution msg ls lc r :
  record_of (parse_message msg ls lc) = Some r ->
  let body := default [] (text_div msg) in
  (is_service msg = true ->
     rec_content_type r = py "service"
     /\ rec_text r = match body with [] => node_text msg | _ :: _ => body end)
  /\ (is_service msg = false ->
      forall m, detect_media_type (media_wrap msg) = Some m ->
                rec_content_type r = m /\ rec_text r = body)
  /\ (is_service msg = false ->
      detect_media_type (media_wrap msg) = None ->
      body <> [] -> rec_content_type r = py "text" /\ rec_text r = body)
  /\ (is_service msg = false ->
      detect_media_type (media_wrap msg) = None ->
      body = [] -> rec_content_type r = py "unknown" /\ rec_text r = []).
Proof.
  rewrite parse_message_eq. unfold record_of.
  destruct (truthy (date_text msg)); cbn [fst]; [|discriminate].
  cbv zeta. intros [= <-]. cbn [rec_content_type rec_text].
  split; [|split; [|split]].
  - intros Hs. rewrite Hs. cbn [andb]. split; [reflexivity|].
    destruct (default [] (text_div msg)); reflexivity.
  - intros Hs m Hm. rewrite Hs, Hm, (detect_media_type_truthy _ _ Hm).
    split; reflexivity.
  - intros Hs Hm Hb. rewrite Hs, Hm. cbn [truthy andb].
    destruct (default [] (text_div msg)); [congruence|]. split; reflexivity.
  - intros Hs Hm Hb. rewrite Hs, Hm, Hb. split; reflexivity.
Qed.

Lemma parse_message_continuation_witness :
  (is_service sample_first = false
   /\ ~ no_timestamp sample_first
   /\ from_name sample_first = Some (py "Dias K.")
   /\ Forall transparent [sample_service]
   /\ from_name sample_last = None
   /\ ~ no_timestamp sample_last)
  /\ exists records' r,
       parse_nodes ([], None, None)
         (sample_first :: [sample_service] ++ [sample_last])
       = ((records' ++ [r])%list, Some (py "Dias K."), Some (py "Dias"))
       /\ rec_sender r = py "Dias K."
       /\ rec_sender_canonical r = Some (py "Dias").
Proof.
  assert (Hs : Forall transparent [sample_service])
    by (constructor; [left; vm_compute; reflexivity|constructor]).
  assert (H1 : ~ no_timestamp sample_first)
    by (rewrite no_timestamp_truthy; vm_compute; discriminate).
  assert (H3 : ~ no_timestamp sample_last)
    by (rewrite no_timestamp_truthy; vm_compute; discriminate).
  split.
  - repeat split; try (vm_compute; reflexivity); assumption.
  - apply (proj2 parse_message_continuation sample_first [sample_service]
             sample_last [] None None);
      try (vm_compute; reflexivity); assumption.
Defined.


Lemma content_type_resolution_witness :
  exists r,
    record_of (parse_message sample_photo None None) = Some r
    /\ rec_content_type r = py "photo"
    /\ rec_text r = [].
Proof.
  eexists. split; [vm_compute; reflexivity|].
  refine (proj1 (proj2 (content_type_resolution sample_photo None None _ _))
            _ (py "photo") _);
    vm_compute; reflexivity.
Defined.

(** The sample export through the loop: the service node without
    timestamp is rejected, the node without sender inherits "Dias K.". *)
Example sample_records :
  match load_chat_records [] sample_directory with
  | OK records =>
      List.map (fun r => (rec_sender r, rec_sender_canonical r,
                          rec_content_type r))
        records
  | Error _ => []
  end
  = [ (py "Dias K.", Some (py "Dias"), py "text");
      (py "Dias K.", Some (py "Dias"), py "text");
      (py "Asanali", Some (py "Asanali"), py "photo") ].
Proof. vm_compute. reflexivity. Qed.

(** ** The sender canonicaliser *)

(** A boolean property checked on every code point of the repertoire. *)
Lemma on_repertoire (P : N -> bool) :
  forallb P REPERTOIRE = true ->
  forall c, in_repertoire c = true -> P c = true.
Proof.
  intros H c Hc. rewrite forallb_forall in H. apply H.
  unfold REPERTOIRE. apply in_map_iff. exists (N.to_nat c).
  split; [lia|]. apply in_or_app. unfold in_repertoire in Hc.
  apply orb_prop in Hc as [Hc|Hc].
  - left. apply N.ltb_lt in Hc. apply in_seq. lia.
  - right. apply andb_prop in Hc as [H1 H2].
    apply N.leb_le in H1, H2. apply in_seq. lia.
Qed.

Lemma case_facts c : in_repertoire c = true -> case_facts_at c = true.
Proof. apply on_repertoire. vm_compute. reflexivity. Qed.

(** *** Whitespace handling *)

Lemma lstrip_Forall (P : N -> Prop) s : Forall P s -> Forall P (Str.lstrip s).
Proof.
  induction 1 as [|c s Hc Hs IH]; simpl; [constructor|].
  destruct (Str.isspace c); [exact IH|constructor; assumption].
Qed.

Lemma strip_Forall (P : N -> Prop) s : Forall P s -> Forall P (Str.strip s).
Proof.
  intros H. unfold Str.strip, Str.rstrip.
  apply Forall_rev, lstrip_Forall, Forall_rev, lstrip_Forall, H.
Qed.

Lemma lstrip_id c s : Str.isspace c = false -> Str.lstrip (c :: s) = c :: s.
Proof. intros H. simpl. rewrite H. reflexivity. Qed.

Lemma strip_id s :
  Forall (fun c => Str.isspace c = false) s -> Str.strip s = s.
Proof.
  intros H. unfold Str.strip, Str.rstrip.
  assert (Hl : forall t, Forall (fun c => Str.isspace c = false) t ->
                         Str.lstrip t = t).
  { intros [|c t] Ht; [reflexivity|].
    apply lstrip_id. inversion Ht; assumption. }
  rewrite (Hl s H), (Hl (rev s)) by (apply Forall_rev, H).
  apply rev_involutive.
Qed.

(** Every token of [split] is non-empty and free of whitespace. *)
Lemma split_tokens (P : N -> Prop) s :
  Forall P s ->
  Forall (fun tok => tok <> [] /\
                     Forall (fun c => Str.isspace c = false /\ P c) tok)
    (Str.split s).
Proof.
  induction 1 as [|c s Hc Hs IH]; [constructor|].
  cbn [Str.split]. destruct (Str.isspace c) eqn:Ec; [exact IH|].
  destruct s as [|d s'].
  - repeat constructor; [discriminate|assumption..].
  - destruct (Str.isspace d) eqn:Ed.
    + constructor; [|exact IH]. split; [discriminate|]. repeat constructor; assumption.
    + destruct (Str.split (d :: s')) as [|tok rest].
      * repeat constructor; [discriminate|assumption..].
      * inversion IH as [|? ? [Hne Htok] Hrest]; subst.
        constructor; [|assumption]. split; [discriminate|].
        constructor; [split; assumption|assumption].
Qed.

(** A non-empty string without whitespace is its own single token. *)
Lemma split_single s :
  s <> [] -> Forall (fun c => Str.isspace c = false) s -> Str.split s = [s].
Proof.
  induction s as [|c s IH]; [congruence|]. intros _ H.
  inversion H as [|? ? Hc Hs]; subst.
  cbn [Str.split]. rewrite Hc. destruct s as [|d s']; [reflexivity|].
  inversion Hs as [|? ? Hd Hs']; subst. rewrite Hd.
  rewrite IH by (congruence || assumption). reflexivity.
Qed.

Lemma re_sub_not_id cls s :
  Forall (fun c => Str.in_class cls c = true) s -> Str.re_sub_not cls s = s.
Proof.
  induction 1 as [|c s Hc Hs IH]; [reflexivity|].
  unfold Str.re_sub_not in *. simpl. rewrite Hc, IH. reflexivity.
Qed.

(** *** Tokens of plain names *)

Lemma token_char_spec c :
  token_char c = true <->
  Str.isspace c = false /\ Str.in_class NAME_CLASS c = true
  /\ in_repertoire c = true.
Proof.
  unfold token_char. rewrite !andb_true_iff, negb_true_iff. tauto.
Qed.

Ltac case_facts c Hc :=
  let F := fresh "F" in
  pose proof (case_facts c Hc) as F;
  unfold case_facts_at in F; cbv zeta in F;
  repeat (apply andb_prop in F as [F ?]).

Lemma do_title_token b s :
  Forall (fun c => token_char c = true) s ->
  Forall (fun c => token_char c = true) (Str.do_title b s).
Proof.
  intros H. revert b. induction H as [|c s Hc Hs IH]; intros b; [constructor|].
  cbn [Str.do_title]. constructor; [|apply IH].
  assert (Hlt : in_repertoire c = true)
    by (apply token_char_spec in Hc; tauto).
  case_facts c Hlt. rewrite Hc in *. cbn in *.
  match goal with H : _ && _ = true |- _ => apply andb_prop in H as [? ?] end.
  destruct b; assumption.
Qed.

Lemma do_title_idem b s :
  plain_name s -> Str.do_title b (Str.do_title b s) = Str.do_title b s.
Proof.
  intros H. revert b. induction H as [|c s Hc Hs IH]; intros b; [reflexivity|].
  cbn [Str.do_title]. case_facts c Hc.
  repeat match goal with
         | H : (_ =? _) = true |- _ => apply N.eqb_eq in H
         | H : Bool.eqb _ _ = true |- _ => apply Bool.eqb_prop in H
         end.
  destruct b.
  - f_equal; [congruence|].
    replace (Str.is_cased (Str.to_lower c)) with (Str.is_cased c) by congruence.
    apply IH.
  - f_equal; [congruence|].
    replace (Str.is_cased (Str.to_title c)) with (Str.is_cased c) by congruence.
    apply IH.
Qed.

Lemma casefold_do_title b s :
  plain_name s -> Str.casefold (Str.do_title b s) = Str.casefold s.
Proof.
  intros H. revert b. induction H as [|c s Hc Hs IH]; intros b; [reflexivity|].
  cbn [Str.do_title]. unfold Str.casefold in *. cbn [List.map].
  case_facts c Hc.
  repeat match goal with
         | H : (_ =? _) = true |- _ => apply N.eqb_eq in H
         | H : Bool.eqb _ _ = true |- _ => apply Bool.eqb_prop in H
         end.
  rewrite IH. destruct b; f_equal; congruence.
Qed.

Lemma do_title_nonempty b s : s <> [] -> Str.do_title b s <> [].
Proof. destruct s; [congruence|discriminate]. Qed.

Lemma canonical_sender_unfold name :
  name <> [] ->
  canonical_sender name
  = match Str.split (Str.strip (Str.re_sub_not NAME_CLASS name)) with
    | [] => None
    | p0 :: _ =>
        Some (default (Str.title p0) (USER_MAP !! Str.casefold p0))
    end.
Proof. destruct name; [congruence|reflexivity]. Qed.

Lemma USER_MAP_values key v :
  USER_MAP !! key = Some v -> canonical_sender v = Some v.
Proof.
  intros E. unfold USER_MAP in E. apply elem_of_list_to_map_2 in E.
  repeat (apply elem_of_cons in E as [E|E];
          [injection E as _ ->; vm_compute; reflexivity|]).
  apply elem_of_nil in E. destruct E.
Qed.

(** The first token of a plain name consists of token characters. *)
Lemma first_token_plain name p0 rest :
  plain_name name ->
  Str.split (Str.strip (Str.re_sub_not NAME_CLASS name)) = p0 :: rest ->
  p0 <> [] /\ Forall (fun c => token_char c = true) p0.
Proof.
  intros Ha E.
  set (P := fun c => (Str.in_class NAME_CLASS c = true \/ c = 0x20)
                    /\ in_repertoire c = true).
  assert (Hsub : Forall P (Str.re_sub_not NAME_CLASS name)).
  { unfold Str.re_sub_not. apply List.Forall_map.
    eapply List.Forall_impl; [|exact Ha]. intros c Hc. unfold P. cbn beta.
    destruct (Str.in_class NAME_CLASS c) eqn:Ec; split; auto. }
  pose proof (split_tokens P _ (strip_Forall P _ Hsub)) as Ht.
  rewrite E in Ht. inversion Ht as [|? ? [Hne Htok] _]; subst.
  split; [assumption|].
  eapply List.Forall_impl; [|exact Htok]. intros c [Hsp [[Hin|Heq] Hlt]].
  - apply token_char_spec. auto.
  - subst c. vm_compute in Hsp. discriminate.
Qed.

Lemma token_chars_plain s :
  Forall (fun c => token_char c = true) s -> plain_name s.
Proof.
  apply List.Forall_impl. intros c H. apply token_char_spec in H. tauto.
Qed.

(** A title-cased token that is no alias is a fixed point. *)
Lemma canonical_sender_title p0 :
  p0 <> [] ->
  Forall (fun c => token_char c = true) p0 ->
  USER_MAP !! Str.casefold p0 = None ->
  canonical_sender (Str.title p0) = Some (Str.title p0).
Proof.
  intros Hne Htok Hmap. unfold Str.title.
  pose proof (do_title_token false p0 Htok) as Ht.
  pose proof (do_title_nonempty false p0 Hne) as Hne'.
  assert (Hsp : Forall (fun c => Str.isspace c = false) (Str.do_title false p0)).
  { eapply List.Forall_impl; [|exact Ht]. intros c H.
    apply token_char_spec in H. tauto. }
  assert (Hcl : Forall (fun c => Str.in_class NAME_CLASS c = true)
                  (Str.do_title false p0)).
  { eapply List.Forall_impl; [|exact Ht]. intros c H.
    apply token_char_spec in H. tauto. }
  rewrite canonical_sender_unfold by assumption.
  rewrite re_sub_not_id, strip_id, split_single by assumption.
  unfold Str.title.
  rewrite casefold_do_title, Hmap by (apply token_chars_plain, Htok).
  cbn [default]. rewrite do_title_idem by (apply token_chars_plain, Htok).
  reflexivity.
Qed.

(** On names written in Basic Latin and Cyrillic, canonicalisation is
    idempotent: the first token keeps to the class of the substitution when
    it is title-cased. *)
Theorem canonical_sender_idempotent_plain name r :
  plain_name name ->
  canonical_sender name = Some r ->
  canonical_sender r = Some r.
Proof.
  intros Ha E. destruct name as [|c n]; [discriminate|].
  rewrite canonical_sender_unfold in E by discriminate.
  destruct (Str.split _) as [|p0 rest] eqn:Es; [discriminate|].
  destruct (first_token_plain _ _ _ Ha Es) as [Hne Htok].
  injection E as <-.
  destruct (USER_MAP !! Str.casefold p0) as [v|] eqn:Em; cbn [default].
  - eapply USER_MAP_values, Em.
  - apply canonical_sender_title; assumption.
Qed.

(** The spellings of one person collapse to one identity. *)
Lemma canonical_sender_aliases :
  canonical_sender (py "Maksat") = Some (py "Maxat")
  /\ canonical_sender (py "maksat B.") = Some (py "Maxat")
  /\ canonical_sender (py "Maxat") = Some (py "Maxat").
Proof. vm_compute. repeat split; reflexivity. Qed.

Lemma canonical_sender_idempotent_plain_witness :
  plain_name (py "maksat B.")
  /\ canonical_sender (py "maksat B.") = Some (py "Maxat")
  /\ canonical_sender (py "Maxat") = Some (py "Maxat").
Proof.
  assert (Ha : plain_name (py "maksat B."))
    by (unfold plain_name; repeat constructor).
  assert (He : canonical_sender (py "maksat B.") = Some (py "Maxat"))
    by (vm_compute; reflexivity).
  split; [exact Ha|split; [exact He|]].
  exact (canonical_sender_idempotent_plain (py "maksat B.") (py "Maxat") Ha He).
Defined.

(** Names in other scripts go through the same steps. *)
Example canonical_sender_cyrillic :
  canonical_sender [0x434; 0x438; 0x430; 0x441; 0x20; 0x41A; 0x2E]
  = Some [0x414; 0x438; 0x430; 0x441].
Proof. vm_compute. reflexivity. Qed.

(** C2, at the input where the code departs from it: the class of the
    substitution admits the letter U+0250 but not its title case U+2C6F.
    [canonical_sender] maps the name U+0250 to U+2C6F, and the name U+2C6F
    to none, so canonicalising twice does not give what canonicalising once
    gives. *)
Theorem canonical_sender_turned_a :
  canonical_sender [0x250] = Some [0x2C6F]
  /\ canonical_sender [0x2C6F] = None
  /\ ~ (forall name r,
          canonical_sender name = Some r -> canonical_sender r = Some r).
Proof.
  assert (H1 : canonical_sender [0x250] = Some [0x2C6F])
    by (vm_compute; reflexivity).
  assert (H2 : canonical_sender [0x2C6F] = None)
    by (vm_compute; reflexivity).
  split; [exact H1|split; [exact H2|]].
  intros H. specialize (H _ _ H1). rewrite H2 in H. discriminate.
Qed.

(** ** Stable sorting *)

Section StableSort.

Context {A : Type} (le : A -> A -> bool).

Lemma insert_sorted_Permutation x l :
  Permutation (insert_sorted le x l) (x :: l).
Proof.
  induction l as [|y l IH]; cbn [insert_sorted]; [reflexivity|].
  destruct (le x y); [reflexivity|].
  rewrite IH. apply perm_swap.
Qed.

Lemma stable_sort_Permutation l : Permutation (stable_sort le l) l.
Proof.
  induction l as [|x l IH]; [reflexivity|].
  unfold stable_sort in *. cbn [foldr].
  rewrite insert_sorted_Permutation, IH. reflexivity.
Qed.

Lemma stable_sort_nil l : stable_sort le l = [] <-> l = [].
Proof.
  split; [|intros ->; reflexivity].
  intros H. pose proof (stable_sort_Permutation l) as P. rewrite H in P.
  apply Permutation_nil in P. exact P.
Qed.

Hypothesis le_total : forall x y, le x y = false -> le y x = true.
Hypothesis le_trans :
  forall x y z, le x y = true -> le y z = true -> le x z = true.

Lemma insert_sorted_StronglySorted x l :
  StronglySorted (fun a b => le a b = true) l ->
  StronglySorted (fun a b => le a b = true) (insert_sorted le x l).
Proof.
  induction 1 as [|y l Hs IH Hy]; cbn [insert_sorted].
  - repeat constructor.
  - destruct (le x y) eqn:E.
    + constructor; [constructor; assumption|].
      constructor; [assumption|].
      eapply List.Forall_impl; [|exact Hy]. intros z Hz. eauto.
    + constructor; [assumption|].
      rewrite (insert_sorted_Permutation x l). constructor; auto.
Qed.

Lemma stable_sort_StronglySorted l :
  StronglySorted (fun a b => le a b = true) (stable_sort le l).
Proof.
  induction l as [|x l IH]; [constructor|].
  unfold stable_sort in *. cbn [foldr].
  apply insert_sorted_StronglySorted, IH.
Qed.

End StableSort.



(** Sortedness under a weaker order. *)
Lemma StronglySorted_weaken {A} (R S : A -> A -> Prop) l :
  (forall a b, R a b -> S a b) -> StronglySorted R l -> StronglySorted S l.
Proof.
  intros HRS. induction 1 as [|x l Hs IH Hx]; constructor; [assumption|].
  eapply List.Forall_impl; [|exact Hx]. intros b. apply HRS.
Qed.


(** ** File-name patterns *)

Lemma glob_match_nil s : glob_match [] s = true <-> s = [].
Proof. destruct s; cbn; split; congruence. Qed.

Lemma glob_match_star pat s :
  glob_match (0x2A :: pat) s = true
  <-> exists a b, s = (a ++ b)%list /\ glob_match pat b = true.
Proof.
  cbn [glob_match]. change (0x2A =? 0x2A) with true. cbv iota.
  induction s as [|c s IH].
  - rewrite orb_false_r. split.
    + intros H. exists [], []. auto.
    + intros (a & b & E & H). symmetry in E.
      apply app_eq_nil in E as [-> ->]. exact H.
  - rewrite orb_true_iff, IH. split.
    + intros [H|(a & b & -> & H)].
      * exists [], (c :: s). auto.
      * exists (c :: a), b. auto.
    + intros (a & b & E & H). destruct a as [|c' a].
      * left. cbn in E. subst b. exact H.
      * right. injection E as -> ->. eauto.
Qed.

Lemma glob_match_lit c pat s :
  c <> 0x2A ->
  glob_match (c :: pat) s = true
  <-> exists s', s = c :: s' /\ glob_match pat s' = true.
Proof.
  intros Hc. cbn [glob_match]. apply N.eqb_neq in Hc. rewrite Hc.
  destruct s as [|d s].
  - split; [discriminate|]. intros (s' & E & _). discriminate.
  - rewrite andb_true_iff, N.eqb_eq. split.
    + intros [-> H]. eauto.
    + intros (s' & [= -> ->] & H). auto.
Qed.

Lemma py_htm : py ".htm" = [0x2E; 0x68; 0x74; 0x6D].
Proof. reflexivity. Qed.

Lemma py_messages :
  py "messages" = [0x6D; 0x65; 0x73; 0x73; 0x61; 0x67; 0x65; 0x73].
Proof. reflexivity. Qed.

(** [*.htm*]: the name contains [.htm]. *)
Lemma glob_markup name :
  glob_match (py "*.htm*") name = true
  <-> exists a b, name = (a ++ py ".htm" ++ b)%list.
Proof.
  change (py "*.htm*") with [0x2A; 0x2E; 0x68; 0x74; 0x6D; 0x2A].
  rewrite py_htm, glob_match_star. split.
  - intros (a & s & -> & H). exists a.
    repeat (apply glob_match_lit in H as (? & -> & H); [|discriminate]).
    eexists. reflexivity.
  - intros (a & b & ->). exists a, ([0x2E; 0x68; 0x74; 0x6D] ++ b)%list.
    split; [reflexivity|]. cbn [app].
    repeat (apply glob_match_lit;
            [discriminate|eexists; split; [reflexivity|]]).
    apply glob_match_star. exists b, [].
    split; [symmetry; apply app_nil_r|reflexivity].
Qed.

(** [messages*.htm*]: the name starts with [messages] and contains [.htm]
    after it. *)
Lemma glob_primary name :
  glob_match (py "messages*.htm*") name = true
  <-> exists a b, name = (py "messages" ++ a ++ py ".htm" ++ b)%list.
Proof.
  change (py "messages*.htm*")
    with ([0x6D; 0x65; 0x73; 0x73; 0x61; 0x67; 0x65; 0x73] ++ py "*.htm*")%list.
  rewrite py_messages. cbn [app]. split.
  - intros H.
    repeat (apply glob_match_lit in H as (? & -> & H); [|discriminate]).
    apply (glob_markup _) in H as (a & b & ->). exists a, b. reflexivity.
  - intros (a & b & ->).
    repeat (apply glob_match_lit;
            [discriminate|eexists; split; [reflexivity|]]).
    apply (glob_markup (a ++ py ".htm" ++ b)%list). eauto.
Qed.

Lemma glob_primary_markup name :
  glob_match (py "messages*.htm*") name = true ->
  glob_match (py "*.htm*") name = true.
Proof.
  rewrite glob_primary, glob_markup. intros (a & b & ->).
  exists (py "messages" ++ a)%list, b. rewrite <- app_assoc. reflexivity.
Qed.









Lemma find_exports_eq directory :
  find_exports directory = sorted_by file_key (selected directory).
Proof.
  unfold find_exports, selected, primary_files, markup_files.
  destruct (glob (py "messages*.htm*") directory) as [|f l] eqn:E;
    [reflexivity|].
  destruct (sorted_by file_key (f :: l)) eqn:Es; [|reflexivity].
  apply stable_sort_nil in Es. discriminate.
Qed.

Lemma glob_In pattern directory f :
  In f (glob pattern directory)
  <-> In f directory /\ glob_match pattern (fst f) = true.
Proof. unfold glob. apply filter_In. Qed.

Lemma primary_nil_markup_nil directory :
  markup_files directory = [] -> primary_files directory = [].
Proof.
  unfold markup_files, primary_files. intros H.
  destruct (glob (py "messages*.htm*") directory) as [|f l] eqn:E;
    [reflexivity|].
  assert (Hin : In f (glob (py "*.htm*") directory)).
  { assert (Hf : In f (glob (py "messages*.htm*") directory))
      by (rewrite E; left; reflexivity).
    apply glob_In in Hf as [? ?]. apply glob_In.
    split; [assumption|]. apply glob_primary_markup. assumption. }
  rewrite H in Hin. destruct Hin.
Qed.

Lemma find_exports_nil directory :
  find_exports directory = [] <-> markup_files directory = [].
Proof.
  rewrite find_exports_eq. unfold sorted_by. rewrite stable_sort_nil.
  unfold selected. split.
  - destruct (primary_files directory); [tauto|discriminate].
  - intros H. rewrite (primary_nil_markup_nil _ H). exact H.
Qed.





(** The sample directory: the unnumbered file first, then 2, then 10; the
    other markup file is left out. *)
Example sample_selection :
  List.map fst (find_exports sample_directory)
  = [py "messages.html"; py "messages2.html"; py "messages10.html"].
Proof. vm_compute. reflexivity. Qed.


Example sample_keys :
  message_sort_key (py "messages.html") = 0
  /\ message_sort_key (py "messages007.html") = 7
  /\ message_sort_key (py "messages_2.html") = 0
  /\ message_sort_key (py "chat12.html") = 0.
Proof. vm_compute. repeat split; reflexivity. Qed.

Example no_exports :
  load_chat_records [(py "readme.txt", [])] [] = Error NoExportsFound.
Proof. vm_compute. reflexivity. Qed.

(** ** The record table *)

Lemma build_row_canonical to_datetime r row :
  build_row to_datetime r = Some row ->
  sender row = rec_sender r
  /\ sender_canonical row
     = match canonical_sender (rec_sender r) with
       | Some c => c
       | None => rec_sender r
       end.
Proof.
  unfold build_row. destruct (to_datetime (rec_date r)); [|discriminate].
  intros [= <-]. cbn. split; [reflexivity|].
  destruct (canonical_sender (rec_sender r)); reflexivity.
Qed.

Lemma build_row_with_canonical to_datetime c r :
  build_row to_datetime (with_canonical c r) = build_row to_datetime r.
Proof. reflexivity. Qed.

(** C10: in the table the canonical identity of every row is computed from
    the raw sender of the row alone: it is [canonical_sender] of the raw
    sender when that is not none, and the raw sender itself otherwise
    ("Unknown" standing in for a missing sender).  The canonical identity
    the parser has put into the record, inherited or not, has no influence
    on the table. *)
Theorem table_canonical_identity (to_datetime : str -> option Z)
    (records : list MessageRecord) :
  Forall
    (fun row =>
       sender_canonical row
       = match canonical_sender (sender row) with
         | Some c => c
         | None => fillna (py "Unknown") (Some (sender row))
         end)
    (build_table to_datetime records)
  /\ (forall f : MessageRecord -> option str,
        build_table to_datetime
          (List.map (fun r => with_canonical (f r) r) records)
        = build_table to_datetime records).
Proof.
  split.
  - apply List.Forall_forall. intros row Hrow.
    apply list_elem_of_In in Hrow. unfold build_table in Hrow.
    apply list_elem_of_omap in Hrow as (r & _ & Hr).
    apply build_row_canonical in Hr as [-> ->]. reflexivity.
  - intros f. unfold build_table.
    induction records as [|r records IH]; [reflexivity|].
    cbn -[build_row]. rewrite build_row_with_canonical, IH. reflexivity.
Qed.

(** ** The participant subset *)





Lemma table_canonical_identity_witness :
  Forall
    (fun row =>
       sender_canonical row
       = match canonical_sender (sender row) with
         | Some c => c
         | None => fillna (py "Unknown") (Some (sender row))
         end)
    (build_table (fun _ => Some 0%Z)
       [ {| rec_message_id := Some 7%Z;
            rec_date := py "01.02.2024 10:00:00";
            rec_sender := py "maksat B.";
            rec_sender_canonical := None;
            rec_text := py "hi";
            rec_content_type := py "text";
            rec_reply_to := None |} ]).
Proof. apply table_canonical_identity. Defined.

(** A sender element without text: the parser inherits the canonical
    identity "Dias", the table computes "Unknown" from the raw sender. *)
Example inherited_identity_discarded (to_datetime : str -> option Z) :
  exists r,
    record_of (parse_message sample_blank_sender (Some (py "Dias K."))
                 (Some (py "Dias"))) = Some r
    /\ rec_sender r = py "Unknown"
    /\ rec_sender_canonical r = Some (py "Dias")
    /\ Forall (fun row => sender_canonical row = py "Unknown")
         (build_table to_datetime [r]).
Proof.
  eexists. split; [vm_compute; reflexivity|].
  split; [reflexivity|split; [reflexivity|]].
  apply List.Forall_forall. intros row Hrow.
  apply list_elem_of_In, list_elem_of_omap in Hrow as (r' & Hr' & Hrow).
  apply list_elem_of_singleton in Hr'. subst r'.
  apply build_row_canonical in Hrow as [_ ->]. vm_compute. reflexivity.
Qed.

Example sample_participants :
  List.map date (user_df sample_df)
  = [32400; 34200; 36000; 72000; 172900; 432050]%Z.
Proof. vm_compute. reflexivity. Qed.

Example only_service_rows :
  aggregate [sample_row 50000 (py "Dias") (py "service") 4]
  = Error NoUserMessages.
Proof. vm_compute. reflexivity. Qed.

(** ** Length distribution *)

Lemma bucket_counts_sum (rows : list Row) :
  list_sum (List.map snd (length_distribution rows)) = length rows.
Proof.
  unfold length_distribution, count_where, list_sum.
  cbn [List.map snd fold_right].
  induction rows as [|r rows IH]; [reflexivity|].
  cbn [List.filter length].
  destruct (Nat.leb_spec (word_count r) 10), (Nat.ltb_spec 10 (word_count r)),
    (Nat.leb_spec (word_count r) 50), (Nat.ltb_spec 50 (word_count r)),
    (Nat.leb_spec (word_count r) 100), (Nat.ltb_spec 100 (word_count r)),
    (Nat.leb_spec (word_count r) 500), (Nat.ltb_spec 500 (word_count r));
    cbn [andb length]; lia.
Qed.

Lemma in_bucket_unique n :
  exists b, In b BUCKETS /\ in_bucket b n = true
            /\ forall b', In b' BUCKETS -> in_bucket b' n = true -> b' = b.
Proof.
  assert (Hcases : (n <= 10 \/ 11 <= n <= 50 \/ 51 <= n <= 100
                    \/ 101 <= n <= 500 \/ 501 <= n)%nat) by lia.
  assert (Hdec : forall b', In b' BUCKETS -> in_bucket b' n = true ->
                 (fst b' <= n)%nat
                 /\ match snd b' with Some hi => (n <= hi)%nat | None => True end).
  { intros [lo hi] _ H. unfold in_bucket in H. cbn [fst snd] in *.
    apply andb_prop in H as [H1 H2]. apply Nat.leb_le in H1.
    split; [exact H1|]. destruct hi; [apply Nat.leb_le, H2|exact I]. }
  destruct Hcases as [H|[H|[H|[H|H]]]];
    [exists (0, Some 10)%nat | exists (11, Some 50)%nat
     | exists (51, Some 100)%nat | exists (101, Some 500)%nat
     | exists (501, None)%nat];
    (split; [cbn; tauto|]);
    (split; [unfold in_bucket; cbn [fst snd];
             apply andb_true_intro; split;
             try reflexivity; apply Nat.leb_le; lia|]);
    intros b' Hin Hb; pose proof (Hdec b' Hin Hb) as [Hlo Hhi];
    cbn in Hin;
    repeat (destruct Hin as [<-|Hin]; [cbn in Hlo, Hhi; try reflexivity; lia|]);
    destruct Hin.
Qed.

(** C8: the five counts of the length distribution are the numbers of
    participant rows whose word count lies in 0-10, 11-50, 51-100, 101-500
    and 501 or more; every word count lies in exactly one of these ranges,
    and the five counts add up to the number of participant rows. *)
Theorem length_distribution_buckets (df : list Row) :
  let rows := user_df df in
  List.map snd (length_distribution rows)
  = List.map (fun b => count_where (fun r => in_bucket b (word_count r)) rows)
      BUCKETS
  /\ (forall n,
        exists b, In b BUCKETS /\ in_bucket b n = true
                  /\ forall b', In b' BUCKETS -> in_bucket b' n = true ->
                                b' = b)
  /\ list_sum (List.map snd (length_distribution rows)) = length rows.
Proof.
  intros rows. split; [|split].
  - unfold length_distribution, BUCKETS, count_where.
    cbn [List.map snd]. unfold in_bucket. cbn [fst snd].
    repeat (apply (f_equal2 cons);
            [f_equal; apply List.filter_ext; intros r;
             rewrite ?andb_true_r; reflexivity|]).
    reflexivity.
  - apply in_bucket_unique.
  - apply bucket_counts_sum.
Qed.

(** ** Conversation starters *)

Lemma diff_from_lookup l : forall prev i,
  diff_from prev l !! i
  = match l !! i with
    | Some d =>
        Some (Some (d - match i with
                        | O => prev
                        | S j => default 0%Z (l !! j)
                        end)%Z)
    | None => None
    end.
Proof.
  induction l as [|d l IH]; intros prev i; [destruct i; reflexivity|].
  destruct i as [|i]; [reflexivity|].
  cbn [diff_from]. rewrite !lookup_cons. rewrite IH.
  destruct (l !! i); [|reflexivity]. destruct i; reflexivity.
Qed.

Lemma diff_lookup_0 l : diff l !! 0%nat = match l with [] => None | _ :: _ => Some None end.
Proof. destruct l; reflexivity. Qed.

Lemma diff_lookup_S l i :
  diff l !! S i
  = match l !! i, l !! S i with
    | Some p, Some d => Some (Some (d - p)%Z)
    | _, _ => None
    end.
Proof.
  destruct l as [|d0 l]; [reflexivity|].
  cbn [diff]. rewrite !lookup_cons. rewrite diff_from_lookup.
  destruct i as [|i].
  - cbn. destruct (l !! 0%nat); reflexivity.
  - destruct (l !! S i) eqn:E; cbn.
    + destruct (l !! i) eqn:E'; [reflexivity|].
      apply lookup_ge_None in E'. apply lookup_lt_Some in E. lia.
    + destruct (l !! i); reflexivity.
Qed.

Lemma length_diff l : length (diff l) = length l.
Proof.
  destruct l as [|d l]; [reflexivity|]. cbn. f_equal.
  revert d. induction l as [|e l IH]; intros d; [reflexivity|].
  cbn. f_equal. apply IH.
Qed.

Lemma starter_mask_lookup s i :
  starter_mask s !! i = Some true
  <-> exists j p r,
        i = S j /\ s !! j = Some p /\ s !! i = Some r
        /\ (SIX_HOURS < date r - date p)%Z.
Proof.
  unfold starter_mask, time_diff.
  change (@List.map) with (@fmap list _). rewrite list_lookup_fmap.
  destruct i as [|i].
  - rewrite diff_lookup_0. split.
    + destruct (date <$> s); cbn; discriminate.
    + intros (j & p & r & E & _). discriminate.
  - rewrite diff_lookup_S, !list_lookup_fmap.
    destruct (s !! i) as [p|] eqn:Ep, (s !! S i) as [r|] eqn:Er; cbn.
    + split.
      * intros [= H]. apply Z.ltb_lt in H. exists i, p, r. auto.
      * intros (j & p' & r' & [= <-] & Hp & [= <-] & H).
        rewrite Ep in Hp. injection Hp as <-. f_equal. apply Z.ltb_lt, H.
    + split; [discriminate|].
      intros (j & p' & r' & [= <-] & _ & H & _). discriminate.
    + split; [discriminate|].
      intros (j & p' & r' & [= <-] & H & _). rewrite Ep in H. discriminate.
    + split; [discriminate|].
      intros (j & p' & r' & [= <-] & H & _). rewrite Ep in H. discriminate.
Qed.

Lemma value_counts_lookup l u :
  value_counts l !! u
  = match length (List.filter (fun k => bool_decide (k = u)) l) with
    | O => None
    | S n => Some (S n)
    end.
Proof.
  induction l as [|k l IH]; [reflexivity|].
  unfold value_counts in *. cbn [foldr List.filter].
  destruct (bool_decide (k = u)) eqn:E.
  - apply bool_decide_eq_true in E. subst k.
    rewrite lookup_insert_eq, IH. cbn [length].
    destruct (length _); reflexivity.
  - apply bool_decide_eq_false in E.
    rewrite lookup_insert_ne by assumption. exact IH.
Qed.

Lemma sort_values_StronglySorted rows :
  StronglySorted (fun a b => (date a <= date b)%Z) (sort_values rows).
Proof.
  unfold sort_values.
  eapply StronglySorted_weaken; [|apply stable_sort_StronglySorted].
  - intros a b H. cbn beta in H. apply Z.leb_le, H.
  - intros x y H. apply Z.leb_gt in H. apply Z.leb_le. lia.
  - intros x y z H1 H2. apply Z.leb_le in H1, H2. apply Z.leb_le. lia.
Qed.

Lemma sort_values_Permutation rows : Permutation (sort_values rows) rows.
Proof. apply stable_sort_Permutation. Qed.

Lemma time_diff_nonneg df_sorted i d :
  StronglySorted (fun a b => (date a <= date b)%Z) df_sorted ->
  time_diff df_sorted !! i = Some (Some d) -> (0 <= d)%Z.
Proof.
  intros Hs. unfold time_diff. destruct i as [|i].
  - rewrite diff_lookup_0. destruct (List.map date df_sorted); discriminate.
  - rewrite diff_lookup_S.
    change (@List.map) with (@fmap list _). rewrite !list_lookup_fmap.
    destruct (df_sorted !! i) as [p|] eqn:Ep; [|discriminate].
    destruct (df_sorted !! S i) as [r|] eqn:Er; [|discriminate].
    cbn. intros [= <-].
    assert (Hle : (date p <= date r)%Z).
    { revert i Ep Er. induction Hs as [|a l Hl IH Ha]; intros i Ep Er;
        [discriminate|].
      destruct i as [|i].
      - injection Ep as ->. cbn in Er.
        rewrite List.Forall_forall in Ha. apply Ha.
        apply list_elem_of_In, list_elem_of_lookup. eauto.
      - cbn in Ep, Er. apply (IH i); assumption. }
    lia.
Qed.

Lemma select_In {A} (l : list A) : forall mask x,
  In x (select l mask) -> In x l.
Proof.
  induction l as [|y l IH]; intros mask x; [destruct mask; intros []|].
  destruct mask as [|b mask]; [intros []|].
  cbn [select]. destruct b.
  - intros [<-|H]; [left; reflexivity|right; eapply IH, H].
  - intros H. right. eapply IH, H.
Qed.

(** C5: let the participant subset be sorted by timestamp ascending.  The
    row at a position is a conversation starter if and only if it has a
    predecessor and its timestamp exceeds that of the predecessor by more
    than 6 hours; the first row, which has no difference, is never one; the
    starters are participant rows, and the tally of an identity is the
    number of starter rows of that canonical identity (an identity without
    starter has no entry). *)
Theorem conversation_starter_rule (df df_sorted : list Row) :
  Permutation df_sorted (user_df df) ->
  StronglySorted (fun a b => (date a <= date b)%Z) df_sorted ->
  length (starter_mask df_sorted) = length df_sorted
  /\ conversation_starters df_sorted
     = select df_sorted (starter_mask df_sorted)
  /\ (forall i,
        starter_mask df_sorted !! i = Some true
        <-> exists j p r,
              i = S j /\ df_sorted !! j = Some p /\ df_sorted !! i = Some r
              /\ (SIX_HOURS < date r - date p)%Z)
  /\ starter_mask df_sorted !! 0%nat <> Some true
  /\ (forall i d, time_diff df_sorted !! i = Some (Some d) -> (0 <= d)%Z)
  /\ Forall (fun r => In r (user_df df)) (conversation_starters df_sorted)
  /\ (forall u,
        starters_per_user df_sorted !! u
        = match
            length
              (List.filter (fun r => bool_decide (sender_canonical r = u))
                 (conversation_starters df_sorted))
          with
          | O => None
          | S n => Some (S n)
          end).
Proof.
  intros Hperm Hsorted.
  split; [|split; [|split; [|split; [|split; [|split]]]]].
  - unfold starter_mask, time_diff.
    rewrite !length_map, length_diff, length_map. reflexivity.
  - reflexivity.
  - apply starter_mask_lookup.
  - intros H. apply starter_mask_lookup in H as (j & p & r & E & _).
    discriminate.
  - intros i d. apply time_diff_nonneg, Hsorted.
  - apply List.Forall_forall. intros r Hr.
    apply (Permutation_in _ Hperm). eapply select_In, Hr.
  - intros u. unfold starters_per_user. rewrite value_counts_lookup.
    assert (E : forall l : list Row,
               length (List.filter (fun k => bool_decide (k = u))
                         (List.map sender_canonical l))
               = length (List.filter
                           (fun r => bool_decide (sender_canonical r = u)) l)).
    { induction l as [|r l IH]; [reflexivity|]. cbn [List.map List.filter].
      destruct (bool_decide (sender_canonical r = u)); cbn [length];
        rewrite IH; reflexivity. }
    rewrite E. reflexivity.
Qed.

(** ** Inactive days *)

Lemma col_min_spec ds : forall d,
  In (col_min d ds) (d :: ds)
  /\ forall x, In x (d :: ds) -> (col_min d ds <= x)%Z.
Proof.
  unfold col_min. induction ds as [|e ds IH]; intros d.
  - cbn. split; [tauto|]. intros x [Hx|[]]. lia.
  - cbn [fold_left]. destruct (IH (Z.min d e)) as [Hin Hle]. split.
    + destruct Hin as [Hin|Hin]; [|right; right; exact Hin].
      rewrite <- Hin. destruct (Z.min_spec d e) as [[_ ->]|[_ ->]];
        [left|right; left]; reflexivity.
    + intros x [Hx|[Hx|Hx]].
      * specialize (Hle (Z.min d e) (or_introl eq_refl)). lia.
      * specialize (Hle (Z.min d e) (or_introl eq_refl)). lia.
      * apply Hle. right. exact Hx.
Qed.

Lemma col_max_spec ds : forall d,
  In (col_max d ds) (d :: ds)
  /\ forall x, In x (d :: ds) -> (x <= col_max d ds)%Z.
Proof.
  unfold col_max. induction ds as [|e ds IH]; intros d.
  - cbn. split; [tauto|]. intros x [Hx|[]]. lia.
  - cbn [fold_left]. destruct (IH (Z.max d e)) as [Hin Hle]. split.
    + destruct Hin as [Hin|Hin]; [|right; right; exact Hin].
      rewrite <- Hin. destruct (Z.max_spec d e) as [[_ ->]|[_ ->]];
        [right; left|left]; reflexivity.
    + intros x [Hx|[Hx|Hx]].
      * specialize (Hle (Z.max d e) (or_introl eq_refl)). lia.
      * specialize (Hle (Z.max d e) (or_introl eq_refl)). lia.
      * apply Hle. right. exact Hx.
Qed.

Lemma StronglySorted_le_lt (l : list Z) :
  StronglySorted Z.le l -> NoDup l -> StronglySorted Z.lt l.
Proof.
  induction 1 as [|x l Hs IH Hx]; intros Hnd; [constructor|].
  apply NoDup_cons in Hnd as [Hnotin Hnd].
  constructor; [apply IH, Hnd|].
  apply List.Forall_forall. intros y Hy.
  rewrite List.Forall_forall in Hx. specialize (Hx y Hy).
  assert (x <> y) by (intros ->; apply Hnotin, list_elem_of_In, Hy).
  lia.
Qed.

Lemma inactive_days_eq rows :
  rows <> [] ->
  inactive_days rows
  = merge_sort Z.le
      (elements
         ((list_to_set (date_range (first_day rows) (last_day rows)) : gset Z)
            ∖ active_days rows)).
Proof.
  unfold inactive_days, first_day, last_day, active_days.
  destruct rows as [|r rows]; [congruence|]. reflexivity.
Qed.

Lemma first_last_day rows :
  rows <> [] ->
  first_day rows ∈ active_days rows
  /\ last_day rows ∈ active_days rows
  /\ forall d, d ∈ active_days rows ->
               (first_day rows <= d <= last_day rows)%Z.
Proof.
  unfold first_day, last_day, active_days.
  destruct rows as [|r rows]; [congruence|]. intros _.
  cbn [List.map].
  destruct (col_min_spec (List.map day rows) (day r)) as [Hmin Hle].
  destruct (col_max_spec (List.map day rows) (day r)) as [Hmax Hge].
  split; [|split].
  - apply elem_of_list_to_set, list_elem_of_In, Hmin.
  - apply elem_of_list_to_set, list_elem_of_In, Hmax.
  - intros d Hd. apply elem_of_list_to_set, list_elem_of_In in Hd.
    split; [apply Hle|apply Hge]; exact Hd.
Qed.

(** C9: for a participant subset that is not empty, the inactive days are,
    in strictly ascending order, the days from the earliest to the latest
    participant day that are not active; so the number of inactive days
    plus the number of distinct active days is the inclusive span from the
    earliest to the latest active day. *)
Theorem inactive_days_complement (df : list Row) :
  let rows := user_df df in
  rows <> [] ->
  StronglySorted Z.lt (inactive_days rows)
  /\ (forall d,
        In d (inactive_days rows)
        <-> (first_day rows <= d <= last_day rows)%Z
            /\ d ∉ active_days rows)
  /\ (first_day rows ∈ active_days rows
      /\ last_day rows ∈ active_days rows
      /\ forall d, d ∈ active_days rows ->
                   (first_day rows <= d <= last_day rows)%Z)
  /\ (Z.of_nat (length (inactive_days rows))
      + Z.of_nat (size (active_days rows))
      = last_day rows - first_day rows + 1)%Z.
Proof.
  intros rows Hne.
  pose proof (first_last_day rows Hne) as (Hfirst & Hlast & Hrange).
  rewrite (inactive_days_eq rows Hne).
  set (range := list_to_set (date_range (first_day rows) (last_day rows))
                : gset Z).
  assert (Hin_range : forall d,
             d ∈ range <-> (first_day rows <= d <= last_day rows)%Z).
  { intros d. unfold range, date_range.
    rewrite elem_of_list_to_set, elem_of_seqZ. lia. }
  pose proof (merge_sort_Permutation Z.le (elements (range ∖ active_days rows)))
    as Hperm.
  split; [|split; [|split]].
  - apply StronglySorted_le_lt.
    + apply StronglySorted_merge_sort; apply _.
    + rewrite Hperm. apply NoDup_elements.
  - intros d. rewrite <- list_elem_of_In, Hperm, elem_of_elements,
      elem_of_difference, Hin_range. reflexivity.
  - auto.
  - rewrite Hperm.
    change (length (elements (range ∖ active_days rows)))
      with (size (range ∖ active_days rows)).
    assert (Hsub : active_days rows ⊆ range).
    { intros d Hd. apply Hin_range, Hrange, Hd. }
    rewrite (size_difference _ _ Hsub).
    assert (Hsize : size range
                    = Z.to_nat (last_day rows - first_day rows + 1)).
    { unfold range, date_range.
      rewrite size_list_to_set by apply NoDup_seqZ. apply length_seqZ. }
    pose proof (subseteq_size _ _ Hsub) as Hle.
    specialize (Hrange _ Hfirst). lia.
Qed.

Lemma inactive_days_complement_witness :
  user_df sample_df <> []
  /\ inactive_days (user_df sample_df) = [1; 3; 4]%Z
  /\ (Z.of_nat (length (inactive_days (user_df sample_df)))
      + Z.of_nat (size (active_days (user_df sample_df)))
      = last_day (user_df sample_df) - first_day (user_df sample_df) + 1)%Z.
Proof.
  assert (Hne : user_df sample_df <> [])
    by (vm_compute; discriminate).
  split; [exact Hne|split; [vm_compute; reflexivity|]].
  exact (proj2 (proj2 (proj2 (inactive_days_complement sample_df Hne)))).
Defined.

(** Rows at 09:00, 09:30 and 10:00 start nothing; the row at 20:00 and the
    first rows of the later days do, one for each of the three senders. *)
Example sample_starters :
  starter_mask (sort_values (user_df sample_df))
  = [false; false; false; true; true; true]
  /\ starters_per_user (sort_values (user_df sample_df)) !! py "Maxat"
     = Some 1%nat
  /\ starters_per_user (sort_values (user_df sample_df)) !! py "Dias"
     = Some 1%nat
  /\ starters_per_user (sort_values (user_df sample_df)) !! py "Arseniy"
     = None.
Proof. vm_compute. repeat split; reflexivity. Qed.

Lemma conversation_starter_rule_witness :
  Permutation (sort_values (user_df sample_df)) (user_df sample_df)
  /\ StronglySorted (fun a b => (date a <= date b)%Z)
       (sort_values (user_df sample_df))
  /\ starter_mask (sort_values (user_df sample_df)) !! 0%nat <> Some true
  /\ starters_per_user (sort_values (user_df sample_df)) !! py "Maxat"
     = Some 1%nat.
Proof.
  pose proof (sort_values_Permutation (user_df sample_df)) as Hp.
  pose proof (sort_values_StronglySorted (user_df sample_df)) as Hs.
  pose proof (conversation_starter_rule sample_df
                (sort_values (user_df sample_df)) Hp Hs)
    as (_ & _ & _ & H0 & _ & _ & Hu).
  split; [exact Hp|split; [exact Hs|split; [exact H0|]]].
  rewrite Hu. vm_compute. reflexivity.
Defined.

Lemma length_distribution_buckets_witness :
  list_sum (List.map snd (length_distribution (user_df sample_df)))
  = length (user_df sample_df).
Proof. apply (length_distribution_buckets sample_df). Defined.

Example sample_length_distribution :
  length_distribution (user_df sample_df)
  = [ (py "0-10", 2%nat); (py "11-50", 1%nat); (py "51-100", 1%nat);
      (py "100-500", 1%nat); (py "500+", 1%nat) ].
Proof. vm_compute. reflexivity. Qed.

(** * Further properties

    Properties of the parser, the loader, the table and the views beyond
    the statements above. *)

(** ** Tokens and whitespace *)

Lemma split_lstrip s : Str.split (Str.lstrip s) = Str.split s.
Proof.
  induction s as [|c s IH]; [reflexivity|].
  cbn [Str.lstrip]. destruct (Str.isspace c) eqn:E; [|reflexivity].
  rewrite IH. cbn [Str.split]. rewrite E. reflexivity.
Qed.

Lemma split_snoc_space s w :
  Str.isspace w = true -> Str.split (s ++ [w]) = Str.split s.
Proof.
  intros Hw. induction s as [|c s IH].
  - cbn [app Str.split]. rewrite Hw. reflexivity.
  - cbn [app]. cbn [Str.split]. destruct (Str.isspace c) eqn:Ec; [exact IH|].
    destruct s as [|d s'].
    + cbn [app]. rewrite Hw. cbn [Str.split]. rewrite Hw. reflexivity.
    + cbn [app] in *. destruct (Str.isspace d) eqn:Ed;
        rewrite IH; reflexivity.
Qed.

Lemma split_rstrip s : Str.split (Str.rstrip s) = Str.split s.
Proof.
  unfold Str.rstrip. rewrite <- (rev_involutive s) at 2.
  induction (rev s) as [|c l IH]; [reflexivity|].
  cbn [Str.lstrip rev]. destruct (Str.isspace c) eqn:E.
  - rewrite IH. symmetry. apply split_snoc_space, E.
  - reflexivity.
Qed.

(** Stripping a string does not change its words. *)
Lemma split_strip s : Str.split (Str.strip s) = Str.split s.
Proof. unfold Str.strip. rewrite split_rstrip. apply split_lstrip. Qed.

Lemma split_nil_iff s :
  Str.split s = [] <-> Forall (fun c => Str.isspace c = true) s.
Proof.
  induction s as [|c s IH]; [split; [constructor|reflexivity]|].
  cbn [Str.split]. destruct (Str.isspace c) eqn:Ec.
  - rewrite IH. split; [constructor; assumption|].
    intros H. inversion H; assumption.
  - split.
    + destruct s as [|d s']; [discriminate|].
      destruct (Str.isspace d); [discriminate|].
      destruct (Str.split (d :: s')); discriminate.
    + intros H. inversion H; congruence.
Qed.


(** ** More on the sender canonicaliser *)

Lemma canonical_sender_split name :
  name <> [] ->
  canonical_sender name
  = match Str.split (Str.re_sub_not NAME_CLASS name) with
    | [] => None
    | p0 :: _ =>
        Some (default (Str.title p0) (USER_MAP !! Str.casefold p0))
    end.
Proof. intros H. rewrite canonical_sender_unfold, split_strip; auto. Qed.

Lemma re_sub_not_space c :
  Str.isspace (if Str.in_class NAME_CLASS c then c else 0x20) = true
  <-> name_char c = false.
Proof.
  unfold name_char. destruct (Str.in_class NAME_CLASS c); cbn [andb].
  - rewrite negb_false_iff. reflexivity.
  - split; reflexivity.
Qed.

(** X1: [canonical_sender] gives none exactly for the names without a single
    character that the substitution keeps and that is no whitespace. *)
Theorem canonical_sender_none_iff name :
  canonical_sender name = None
  <-> Forall (fun c => name_char c = false) name.
Proof.
  destruct name as [|c0 n]; [split; [constructor|reflexivity]|].
  rewrite canonical_sender_split by discriminate.
  set (name := c0 :: n).
  transitivity (Str.split (Str.re_sub_not NAME_CLASS name) = []).
  { destruct (Str.split _); split; congruence. }
  rewrite split_nil_iff. unfold Str.re_sub_not. rewrite List.Forall_map.
  split; apply List.Forall_impl; intros c; apply re_sub_not_space.
Qed.





Lemma isspace_true c :
  Str.isspace c = true ->
  9 <= c <= 13 \/ 28 <= c <= 32 \/ c = 0x85 \/ c = 0xA0 \/ c = 0x1680
  \/ 0x2000 <= c <= 0x200A \/ c = 0x2028 \/ c = 0x2029 \/ c = 0x202F
  \/ c = 0x205F \/ c = 0x3000.
Proof.
  unfold Str.isspace.
  rewrite !orb_true_iff, !andb_true_iff, !N.leb_le, !N.eqb_eq. lia.
Qed.

Lemma upper_of_range c v :
  Str.upper_of Str.CASE_TABLE c = Some v ->
  0x41 <= v <= 0x5A \/ 0x400 <= v <= 0x42F \/ v = 0x2C6F.
Proof.
  unfold Str.CASE_TABLE. cbn [Str.upper_of].
  repeat match goal with
         | |- context [if ?b then _ else _] =>
             let E := fresh "E" in
             destruct b eqn:E;
             [apply andb_prop in E as [?%N.leb_le ?%N.leb_le];
              intros [= <-]; lia|]
         end.
  discriminate.
Qed.

Lemma lower_of_range c v :
  Str.lower_of Str.CASE_TABLE c = Some v ->
  0x61 <= v <= 0x7A \/ 0x430 <= v <= 0x45F \/ v = 0x250.
Proof.
  unfold Str.CASE_TABLE. cbn [Str.lower_of].
  repeat match goal with
         | |- context [if ?b then _ else _] =>
             let E := fresh "E" in
             destruct b eqn:E;
             [apply andb_prop in E as [?%N.leb_le ?%N.leb_le];
              intros [= <-]; lia|]
         end.
  discriminate.
Qed.

(** The case mappings never turn a character into whitespace. *)
Lemma case_keeps_nonspace c :
  Str.isspace c = false ->
  Str.isspace (Str.to_title c) = false /\ Str.isspace (Str.to_lower c) = false.
Proof.
  intros Hc. unfold Str.to_title, Str.to_lower. split.
  - destruct (Str.upper_of Str.CASE_TABLE c) as [v|] eqn:E; [|exact Hc].
    cbn [default from_option id]. apply upper_of_range in E.
    destruct (Str.isspace v) eqn:Ev; [|reflexivity].
    apply isspace_true in Ev. lia.
  - destruct (Str.lower_of Str.CASE_TABLE c) as [v|] eqn:E; [|exact Hc].
    cbn [default from_option id]. apply lower_of_range in E.
    destruct (Str.isspace v) eqn:Ev; [|reflexivity].
    apply isspace_true in Ev. lia.
Qed.

Lemma do_title_nonspace b s :
  Forall (fun c => Str.isspace c = false) s ->
  Forall (fun c => Str.isspace c = false) (Str.do_title b s).
Proof.
  intros H. revert b. induction H as [|c s Hc Hs IH]; intros b; [constructor|].
  cbn [Str.do_title]. constructor; [|apply IH].
  destruct (case_keeps_nonspace c Hc). destruct b; assumption.
Qed.

Lemma USER_MAP_words key v :
  USER_MAP !! key = Some v ->
  v <> [] /\ Forall (fun c => Str.isspace c = false) v.
Proof.
  intros E. unfold USER_MAP in E. apply elem_of_list_to_map_2 in E.
  repeat (apply elem_of_cons in E as [E|E];
          [injection E as _ ->; split;
           [discriminate|repeat constructor]|]).
  apply elem_of_nil in E. destruct E.
Qed.

Lemma canonical_sender_Some_word name r :
  canonical_sender name = Some r ->
  r <> [] /\ Forall (fun c => Str.isspace c = false) r.
Proof.
  destruct name as [|c0 n]; [discriminate|].
  rewrite canonical_sender_split by discriminate.
  destruct (Str.split _) as [|p0 rest] eqn:Es; [discriminate|].
  intros [= <-].
  pose proof (split_tokens (fun _ => True)
                (Str.re_sub_not NAME_CLASS (c0 :: n))) as Ht.
  rewrite Es in Ht.
  assert (Hall : Forall (fun _ : N => True)
                   (Str.re_sub_not NAME_CLASS (c0 :: n)))
    by (apply List.Forall_forall; auto).
  specialize (Ht Hall). inversion Ht as [|? ? [Hne Htok] _]; subst.
  destruct (USER_MAP !! Str.casefold p0) as [v|] eqn:Em;
    cbn [default from_option id].
  - eapply USER_MAP_words, Em.
  - split; [apply do_title_nonempty, Hne|].
    apply do_title_nonspace. eapply List.Forall_impl; [|exact Htok].
    intros c [H _]. exact H.
Qed.

(** X3: a canonical identity is one word: not empty and free of whitespace. *)
Theorem canonical_sender_word name r :
  canonical_sender name = Some r ->
  r <> [] /\ Forall (fun c => Str.isspace c = false) r.
Proof. apply canonical_sender_Some_word. Qed.

Lemma canonical_sender_word_witness :
  canonical_sender (py "dias K.") = Some (py "Dias")
  /\ py "Dias" <> []
  /\ Forall (fun c => Str.isspace c = false) (py "Dias").
Proof.
  assert (H : canonical_sender (py "dias K.") = Some (py "Dias"))
    by (vm_compute; reflexivity).
  split; [exact H|]. apply (canonical_sender_word _ _ H).
Defined.

(** ** Decimal numerals *)









(** ** Digit runs *)





(** The sign that [-?] may match is dropped again by [abs]: the signed
    search followed by [abs] is the search of the first digit run. *)
Lemma search_signed_abs s :
  option_map Z.abs (search_signed s)
  = option_map (fun ds => Z.of_N (Str.int_of_digits ds)) (search_digits s).
Proof.
  induction s as [|c s IH]; [reflexivity|].
  cbn [search_signed search_digits]. destruct (Str.isdigit c) eqn:Ec.
  - cbn [option_map]. f_equal. lia.
  - destruct ((c =? 0x2D) && _)%bool eqn:Eminus; [|exact IH].
    apply andb_prop in Eminus as [_ Hd].
    destruct s as [|d s]; [discriminate|].
    cbn [search_digits]. rewrite Hd. cbn [option_map]. f_equal. lia.
Qed.

(** ** The reply target *)

Lemma extract_reply_to_eq link :
  extract_reply_to (Some (Some link))
  = option_map (fun ds => Z.of_N (Str.int_of_digits ds))
      (search_digits (reply_candidate link)).
Proof.
  rewrite <- search_signed_abs. unfold extract_reply_to, reply_candidate.
  destruct (search_signed _); reflexivity.
Qed.


Lemma search_digits_cut h : forall t1 t2,
  Exists (fun c => Str.isdigit c = true) h ->
  search_digits (h ++ 0x20 :: t1) = search_digits (h ++ 0x20 :: t2).
Proof.
  induction h as [|c h IH]; intros t1 t2 Hex.
  - inversion Hex.
  - cbn [app search_digits]. destruct (Str.isdigit c) eqn:Ec.
    + f_equal. clear IH Hex Ec. revert c.
      induction h as [|d h IHh]; intros c.
      * cbn [app Str.take_digits]. destruct (Str.isdigit c); reflexivity.
      * cbn [app Str.take_digits] in *.
        destruct (Str.isdigit c); [|reflexivity].
        f_equal. apply IHh.
    + apply IH. inversion Hex; [congruence|assumption].
Qed.

(** X5: the [href] comes first: when it holds a digit, the [onclick] attribute
    is never looked at. *)
Theorem extract_reply_to_href_first h o1 o2 :
  Exists (fun c => Str.isdigit c = true) h ->
  extract_reply_to (Some (Some {| href := Some h; onclick := o1 |}))
  = extract_reply_to (Some (Some {| href := Some h; onclick := o2 |})).
Proof.
  intros Hex. rewrite !extract_reply_to_eq. unfold reply_candidate.
  cbn [href onclick default from_option id app].
  f_equal. apply search_digits_cut, Hex.
Qed.

Lemma extract_reply_to_href_first_witness :
  Exists (fun c => Str.isdigit c = true) (py "#go_to_message101")
  /\ extract_reply_to
       (Some (Some {| href := Some (py "#go_to_message101");
                      onclick := Some (py "return GoToMessage(7)") |}))
     = extract_reply_to
         (Some (Some {| href := Some (py "#go_to_message101");
                        onclick := None |})).
Proof.
  assert (H : Exists (fun c => Str.isdigit c = true) (py "#go_to_message101")).
  { apply Exists_exists. exists 0x31. split; [|reflexivity].
    apply list_elem_of_In. vm_compute.
    repeat (first [left; reflexivity|right]). }
  split; [exact H|]. apply (extract_reply_to_href_first _ _ _ H).
Defined.



(** ** Records of the parser *)

Ltac py_discriminate :=
  first [discriminate
        |let H := fresh in intros H; vm_compute in H; discriminate H].

Lemma MEDIA_TYPE_MAP_values cls v :
  MEDIA_TYPE_MAP !! cls = Some v ->
  In v CONTENT_TYPES /\ v <> py "service".
Proof.
  intros E. unfold MEDIA_TYPE_MAP in E. apply elem_of_list_to_map_2 in E.
  repeat (apply elem_of_cons in E as [E|E];
          [injection E as _ ->; split; [cbn; tauto|discriminate]|]).
  apply elem_of_nil in E. destruct E.
Qed.

Lemma detect_media_type_values mw t :
  detect_media_type mw = Some t ->
  In t CONTENT_TYPES /\ t <> py "service".
Proof.
  unfold detect_media_type. destruct mw as [[classes|]|]; try discriminate.
  destruct (List.find _ classes) as [cls|]; [|discriminate].
  intros [= <-]. destruct (MEDIA_TYPE_MAP !! cls) as [v|] eqn:E.
  - cbn [default from_option id]. eapply MEDIA_TYPE_MAP_values, E.
  - cbn [default from_option id]. split; [cbn; tauto|discriminate].
Qed.

Lemma record_of_eq msg ls lc r :
  record_of (parse_message msg ls lc) = Some r ->
  truthy (date_text msg) = true
  /\ parse_message msg ls lc
     = (Some r,
        if is_service msg then ls else Some (rec_sender r),
        if is_service msg then lc else rec_sender_canonical r).
Proof.
  rewrite parse_message_eq. unfold record_of.
  destruct (truthy (date_text msg)); [|discriminate].
  cbn [fst snd]. intros [= <-]. split; reflexivity.
Qed.

Lemma record_content_type msg ls lc r :
  record_of (parse_message msg ls lc) = Some r ->
  (rec_content_type r = py "service" <-> is_service msg = true)
  /\ In (rec_content_type r) CONTENT_TYPES.
Proof.
  rewrite parse_message_eq. unfold record_of.
  destruct (truthy (date_text msg)); [|discriminate].
  cbn [fst snd]. intros [= <-]. cbn [rec_content_type].
  destruct (is_service msg).
  - split; [tauto|cbn; tauto].
  - destruct (detect_media_type (media_wrap msg)) as [t|] eqn:Em.
    + destruct (truthy (Some t)) eqn:Et.
      * cbn [default from_option id].
        destruct (detect_media_type_values _ _ Em) as [Hin Hne].
        split; [split; [contradiction|py_discriminate]|exact Hin].
      * destruct (default [] (text_div msg));
          (split; [split; py_discriminate|cbn; tauto]).
    + cbn [truthy].
      destruct (default [] (text_div msg));
        (split; [split; py_discriminate|cbn; tauto]).
Qed.

(** X7: the content type of a record is ["service"] exactly for a service
    node, and it is always one of thirteen values: the four of the parser
    and the nine of the media table. *)
Theorem parse_message_content_type msg ls lc r :
  record_of (parse_message msg ls lc) = Some r ->
  (rec_content_type r = py "service" <-> is_service msg = true)
  /\ In (rec_content_type r) CONTENT_TYPES.
Proof. apply record_content_type. Qed.

Lemma parse_message_content_type_witness :
  exists r,
    record_of (parse_message sample_photo None None) = Some r
    /\ (rec_content_type r = py "service" <-> is_service sample_photo = true)
    /\ In (rec_content_type r) CONTENT_TYPES.
Proof.
  destruct (record_of (parse_message sample_photo None None)) as [r|] eqn:E;
    [|vm_compute in E; discriminate].
  exists r. split; [reflexivity|].
  apply (parse_message_content_type _ _ _ _ E).
Defined.

(** *** Stripping twice *)

Lemma lstrip_head s :
  match Str.lstrip s with [] => True | c :: _ => Str.isspace c = false end.
Proof.
  induction s as [|c s IH]; [exact I|].
  cbn [Str.lstrip]. destruct (Str.isspace c) eqn:E; [exact IH|exact E].
Qed.

Lemma lstrip_lstrip s : Str.lstrip (Str.lstrip s) = Str.lstrip s.
Proof.
  pose proof (lstrip_head s) as H. destruct (Str.lstrip s) as [|c t];
    [reflexivity|]. apply lstrip_id, H.
Qed.

Lemma lstrip_snoc s c :
  Str.isspace c = false -> Str.lstrip (s ++ [c]) = (Str.lstrip s ++ [c])%list.
Proof.
  intros Hc. induction s as [|d s IH].
  - cbn [app Str.lstrip]. rewrite Hc. reflexivity.
  - cbn [app Str.lstrip]. destruct (Str.isspace d); [exact IH|reflexivity].
Qed.

Lemma rstrip_cons c s :
  Str.isspace c = false -> Str.rstrip (c :: s) = c :: Str.rstrip s.
Proof.
  intros Hc. unfold Str.rstrip. cbn [rev].
  rewrite lstrip_snoc by exact Hc. rewrite rev_app_distr. reflexivity.
Qed.

Lemma strip_strip s : Str.strip (Str.strip s) = Str.strip s.
Proof.
  unfold Str.strip at 2 3. pose proof (lstrip_head s) as H.
  destruct (Str.lstrip s) as [|c t] eqn:E; [reflexivity|].
  rewrite rstrip_cons by exact H. unfold Str.strip.
  rewrite lstrip_id by exact H. rewrite rstrip_cons by exact H.
  f_equal. unfold Str.rstrip. rewrite rev_involutive, lstrip_lstrip.
  reflexivity.
Qed.

Lemma search_digits_nonneg s n :
  option_map (fun ds => Z.of_N (Str.int_of_digits ds)) (search_digits s)
  = Some n -> (0 <= n)%Z.
Proof. destruct (search_digits s); [|discriminate]. intros [= <-]. lia. Qed.

Lemma extract_reply_to_nonneg rd n :
  extract_reply_to rd = Some n -> (0 <= n)%Z.
Proof.
  destruct rd as [[link|]|]; try discriminate.
  rewrite extract_reply_to_eq. apply search_digits_nonneg.
Qed.

(** One call of the parser yields a well-formed record, given that the
    inherited canonical identity is a word. *)
Lemma parse_message_wellformed msg ls lc r :
  (forall c, lc = Some c -> is_word c) ->
  record_of (parse_message msg ls lc) = Some r ->
  wellformed r.
Proof.
  intros Hlc Hr.
  pose proof (record_content_type _ _ _ _ Hr) as [_ Hct].
  revert Hr Hct. rewrite parse_message_eq. unfold record_of.
  destruct (truthy (date_text msg)) eqn:Ed; [|discriminate].
  cbn [fst snd]. intros [= <-] Hct. split; cbn [rec_sender rec_date
    rec_sender_canonical rec_message_id rec_reply_to rec_content_type].
  - destruct (truthy (attributed_sender msg ls)) eqn:Es; [|discriminate].
    apply truthy_true in Es as (c & s & ->). discriminate.
  - apply truthy_true in Ed as (c & s & Ed). rewrite Ed.
    cbn [default from_option id]. split; [discriminate|].
    unfold date_text in Ed. destruct (date_div msg) as [[t|]|];
      try discriminate.
    injection Ed as Ed. rewrite <- Ed. apply strip_strip.
  - intros c. destruct (truthy (attributed_sender msg ls)); [|apply Hlc].
    apply canonical_sender_Some_word.
  - intros n. destruct (truthy (node_id msg)); [|discriminate].
    apply search_digits_nonneg.
  - intros n. apply extract_reply_to_nonneg.
  - exact Hct.
Qed.

Lemma parse_message_next_canonical msg ls lc :
  (forall c, lc = Some c -> is_word c) ->
  forall c, snd (parse_message msg ls lc) = Some c -> is_word c.
Proof.
  intros Hlc c. rewrite parse_message_eq.
  destruct (truthy (date_text msg)); [|apply Hlc].
  cbn [snd]. destruct (is_service msg); [apply Hlc|].
  destruct (truthy (attributed_sender msg ls)); [|apply Hlc].
  apply canonical_sender_Some_word.
Qed.

Lemma parse_nodes_wellformed msgs : forall records ls lc,
  Forall wellformed records ->
  (forall c, lc = Some c -> is_word c) ->
  Forall wellformed (fst (fst (parse_nodes (records, ls, lc) msgs)))
  /\ (forall c, snd (parse_nodes (records, ls, lc) msgs) = Some c -> is_word c).
Proof.
  induction msgs as [|m msgs IH]; intros records ls lc Hrec Hlc.
  - split; assumption.
  - unfold parse_nodes. cbn [fold_left loop_step].
    pose proof (parse_message_wellformed m ls lc) as Hwf.
    pose proof (parse_message_next_canonical m ls lc Hlc) as Hnext.
    unfold record_of in Hwf.
    destruct (parse_message m ls lc) as [[parsed ls'] lc'].
    cbn [fst snd] in Hwf, Hnext. apply IH; [|exact Hnext].
    destruct parsed as [r|]; [|exact Hrec].
    apply Forall_app. split; [exact Hrec|].
    constructor; [|constructor]. apply Hwf; [exact Hlc|reflexivity].
Qed.

Lemma parse_files_wellformed files : forall records ls lc,
  Forall wellformed records ->
  (forall c, lc = Some c -> is_word c) ->
  Forall wellformed
    (fst (fst (fold_left (fun (st : LoopState) (f : str * list RawNode) =>
                          parse_nodes st (snd f)) files
                 (records, ls, lc)))).
Proof.
  induction files as [|f files IH]; intros records ls lc Hrec Hlc;
    [exact Hrec|].
  cbn [fold_left].
  destruct (parse_nodes_wellformed (snd f) records ls lc Hrec Hlc) as [H1 H2].
  destruct (parse_nodes (records, ls, lc) (snd f)) as [[records' ls'] lc'].
  apply IH; assumption.
Qed.

Lemma loaded_records_wellformed UPLOAD_DIR DATA_DIR records :
  load_chat_records UPLOAD_DIR DATA_DIR = OK records ->
  records <> [] /\ Forall wellformed records.
Proof.
  unfold load_chat_records.
  destruct (select_files UPLOAD_DIR DATA_DIR) as [|f files] eqn:Ef;
    [discriminate|].
  pose proof (parse_files_wellformed (f :: files) [] None None
                ltac:(constructor) ltac:(discriminate)) as Hwf.
  fold (parse_files (f :: files)) in Hwf.
  destruct (parse_files (f :: files)) as [[recs ls] lc].
  cbn [fst] in Hwf. destruct recs as [|r recs]; [discriminate|].
  intros [= <-]. split; [discriminate|exact Hwf].
Qed.

(** X8: every record that [load_chat_records] returns is well-formed: its
    sender and its date are not empty, the date is stripped, the canonical
    identity (if any) is one word, the identifiers are not negative and the
    content type is one of the known values. *)
Theorem load_chat_records_wellformed UPLOAD_DIR DATA_DIR records :
  load_chat_records UPLOAD_DIR DATA_DIR = OK records ->
  records <> [] /\ Forall wellformed records.
Proof. apply loaded_records_wellformed. Qed.

Lemma load_chat_records_wellformed_witness :
  exists records,
    load_chat_records sample_directory [] = OK records
    /\ records <> [] /\ Forall wellformed records.
Proof.
  destruct (load_chat_records sample_directory []) as [records|e] eqn:E;
    [|vm_compute in E; discriminate].
  exists records. split; [reflexivity|].
  apply (load_chat_records_wellformed _ _ _ E).
Defined.



(** ** Loading *)

Lemma parse_files_from files : forall st,
  fold_left (fun (st : LoopState) (f : str * list RawNode) =>
                          parse_nodes st (snd f)) files st
  = parse_nodes st (all_nodes files).
Proof.
  induction files as [|f files IH]; intros st; [reflexivity|].
  cbn [fold_left]. rewrite IH. unfold all_nodes. cbn [List.map concat].
  rewrite parse_nodes_app. reflexivity.
Qed.

Lemma parse_files_nodes files :
  parse_files files = parse_nodes ([], None, None) (all_nodes files).
Proof. apply parse_files_from. Qed.

(** X10: the loop does not see the file boundaries: parsing the files is
    parsing their nodes in one run, so the sender carries over from the
    last message of a file to the first of the next. *)
Theorem parse_files_all_nodes files :
  parse_files files = parse_nodes ([], None, None) (all_nodes files).
Proof. apply parse_files_from. Qed.

Lemma omap_timestamp_cons m msgs :
  omap timestamp_of (m :: msgs)
  = if truthy (date_text m)
    then default [] (date_text m) :: omap timestamp_of msgs
    else omap timestamp_of msgs.
Proof.
  change (omap timestamp_of (m :: msgs))
    with (match timestamp_of m with
          | Some y => y :: omap timestamp_of msgs
          | None => omap timestamp_of msgs
          end).
  unfold timestamp_of at 1. destruct (truthy (date_text m)) eqn:Ed;
    [|reflexivity].
  apply truthy_true in Ed as (c & s & ->). reflexivity.
Qed.

Lemma parse_nodes_cons st m msgs :
  parse_nodes st (m :: msgs) = parse_nodes (loop_step st m) msgs.
Proof. reflexivity. Qed.

Lemma parse_nodes_dates msgs : forall records ls lc,
  List.map rec_date (fst (fst (parse_nodes (records, ls, lc) msgs)))
  = (List.map rec_date records ++ omap timestamp_of msgs)%list.
Proof.
  induction msgs as [|m msgs IH]; intros records ls lc.
  - cbn. symmetry. apply app_nil_r.
  - rewrite parse_nodes_cons, omap_timestamp_cons. unfold loop_step.
    rewrite parse_message_eq.
    destruct (truthy (date_text m)) eqn:Ed; cbv beta iota zeta.
    + rewrite IH, List.map_app. cbn [List.map rec_date].
      rewrite <- app_assoc. reflexivity.
    + apply IH.
Qed.

(** X11: the records are the nodes with a timestamp, one record per node and
    in reading order. *)
Theorem load_chat_records_dates UPLOAD_DIR DATA_DIR records :
  load_chat_records UPLOAD_DIR DATA_DIR = OK records ->
  List.map rec_date records
  = omap timestamp_of (all_nodes (select_files UPLOAD_DIR DATA_DIR)).
Proof.
  unfold load_chat_records.
  destruct (select_files UPLOAD_DIR DATA_DIR) as [|f files] eqn:Ef;
    [discriminate|].
  pose proof (parse_nodes_dates (all_nodes (f :: files)) [] None None) as Hd.
  rewrite <- parse_files_nodes in Hd.
  destruct (parse_files (f :: files)) as [[recs ls] lc].
  cbn [fst] in Hd. destruct recs as [|r recs]; [discriminate|].
  intros [= <-]. exact Hd.
Qed.

Lemma load_chat_records_dates_witness :
  exists records,
    load_chat_records sample_directory [] = OK records
    /\ List.map rec_date records
       = omap timestamp_of (all_nodes (select_files sample_directory [])).
Proof.
  destruct (load_chat_records sample_directory []) as [records|e] eqn:E;
    [|vm_compute in E; discriminate].
  exists records. split; [reflexivity|].
  apply (load_chat_records_dates _ _ _ E).
Defined.



(** X13: the upload directory comes first: as soon as it holds one markup
    file, the data directory is never read, whatever the upload parses
    to. *)
Theorem upload_directory_first UPLOAD_DIR DATA_DIR DATA_DIR' f :
  In f UPLOAD_DIR ->
  glob_match (py "*.htm*") (fst f) = true ->
  select_files UPLOAD_DIR DATA_DIR = find_exports UPLOAD_DIR
  /\ load_chat_records UPLOAD_DIR DATA_DIR
     = load_chat_records UPLOAD_DIR DATA_DIR'.
Proof.
  intros Hin Hm.
  assert (Hne : find_exports UPLOAD_DIR <> []).
  { rewrite find_exports_nil. unfold markup_files. intros E.
    assert (Hf : In f (glob (py "*.htm*") UPLOAD_DIR))
      by (apply glob_In; auto).
    rewrite E in Hf. destruct Hf. }
  assert (Hsel : forall D, select_files UPLOAD_DIR D = find_exports UPLOAD_DIR).
  { intros D. unfold select_files.
    destruct (find_exports UPLOAD_DIR); [congruence|reflexivity]. }
  split; [apply Hsel|]. unfold load_chat_records. rewrite !Hsel. reflexivity.
Qed.

Lemma upload_directory_first_witness :
  In (py "notes.html", [sample_blank_sender]) sample_directory
  /\ glob_match (py "*.htm*") (py "notes.html") = true
  /\ load_chat_records sample_directory []
     = load_chat_records sample_directory
         [(py "messages.html", [sample_blank_date])].
Proof.
  assert (H1 : In (py "notes.html", [sample_blank_sender]) sample_directory)
    by (right; left; reflexivity).
  assert (H2 : glob_match (py "*.htm*")
                 (fst (py "notes.html", [sample_blank_sender])) = true)
    by reflexivity.
  split; [exact H1|]. split; [exact H2|].
  apply (upload_directory_first sample_directory []
           [(py "messages.html", [sample_blank_date])] _ H1 H2).
Defined.

(** ** The sort key of a numbered export *)






(** ** Derived columns *)

Lemma split_length_aux s :
  (2 * length (Str.split s) <= length s + 1)%nat
  /\ (match s with
      | [] => True
      | c :: _ => Str.isspace c = true
      end -> (2 * length (Str.split s) <= length s)%nat).
Proof.
  induction s as [|c s IH]; [cbn; lia|].
  destruct IH as [IH1 IH2]. cbn [Str.split].
  destruct (Str.isspace c) eqn:Ec.
  - cbn [length]. split; [lia|]. intros _. lia.
  - split; [|discriminate].
    destruct s as [|d s']; [cbn; lia|].
    destruct (Str.isspace d) eqn:Ed.
    + specialize (IH2 eq_refl). cbn [length] in *. lia.
    + destruct (Str.split (d :: s')) as [|tok rest]; cbn [length] in *; lia.
Qed.

Lemma build_row_In to_datetime records row :
  In row (build_table to_datetime records) ->
  exists r, In r records /\ build_row to_datetime r = Some row.
Proof.
  intros H. apply list_elem_of_In in H. unfold build_table in H.
  apply list_elem_of_omap in H as (r & Hr & Hb).
  exists r. split; [apply list_elem_of_In, Hr|exact Hb].
Qed.

(** X15: the word count of a row never exceeds half of its character count,
    rounded up, and it is 0 exactly for a text of whitespace only. *)
Theorem build_row_word_count (to_datetime : str -> option Z) r row :
  build_row to_datetime r = Some row ->
  (2 * word_count row <= char_count row + 1)%nat
  /\ (word_count row = 0%nat
      <-> Forall (fun c => Str.isspace c = true) (text row)).
Proof.
  unfold build_row. destruct (to_datetime (rec_date r)); [|discriminate].
  intros [= <-]. cbn [word_count char_count text]. split.
  - apply split_length_aux.
  - rewrite <- split_nil_iff. apply length_zero_iff_nil.
Qed.

Lemma build_row_word_count_witness :
  exists row,
    build_row (fun _ => Some 0%Z) sample_record = Some row
    /\ (2 * word_count row <= char_count row + 1)%nat
    /\ (word_count row = 0%nat
        <-> Forall (fun c => Str.isspace c = true) (text row)).
Proof.
  destruct (build_row (fun _ => Some 0%Z) sample_record) as [row|] eqn:E;
    [|vm_compute in E; discriminate].
  exists row. split; [reflexivity|].
  apply (build_row_word_count _ _ _ E).
Defined.

Lemma build_row_hour (to_datetime : str -> option Z) r row :
  build_row to_datetime r = Some row -> (0 <= hour row < 24)%Z.
Proof.
  unfold build_row. destruct (to_datetime (rec_date r)) as [d|];
    [|discriminate].
  intros [= <-]. cbn [hour].
  pose proof (Z.mod_pos_bound d 86400 ltac:(lia)) as H.
  split; [apply Z.div_pos; lia|]. apply Z.div_lt_upper_bound; lia.
Qed.

(** X16: the hour of a row is an hour of the day, and day and hour locate the
    timestamp of the row. *)
Theorem build_row_clock (to_datetime : str -> option Z) r row :
  build_row to_datetime r = Some row ->
  (0 <= hour row < 24)%Z
  /\ (day row * 86400 + hour row * 3600 <= date row
      < day row * 86400 + (hour row + 1) * 3600)%Z.
Proof.
  unfold build_row. destruct (to_datetime (rec_date r)) as [d|];
    [|discriminate].
  intros [= <-]. cbn [hour day date].
  pose proof (Z.div_mod d 86400 ltac:(lia)) as H1.
  pose proof (Z.mod_pos_bound d 86400 ltac:(lia)) as H2.
  pose proof (Z.div_mod (d mod 86400) 3600 ltac:(lia)) as H3.
  pose proof (Z.mod_pos_bound (d mod 86400) 3600 ltac:(lia)) as H4.
  assert (0 <= d mod 86400 / 3600 < 24)%Z.
  { split; [apply Z.div_pos; lia|]. apply Z.div_lt_upper_bound; lia. }
  lia.
Qed.

Lemma build_row_clock_witness :
  exists row,
    build_row (fun _ => Some 123456%Z) sample_record = Some row
    /\ (0 <= hour row < 24)%Z
    /\ (day row * 86400 + hour row * 3600 <= date row
        < day row * 86400 + (hour row + 1) * 3600)%Z.
Proof.
  destruct (build_row (fun _ => Some 123456%Z) sample_record) as [row|] eqn:E;
    [|vm_compute in E; discriminate].
  exists row. split; [reflexivity|].
  apply (build_row_clock _ _ _ E).
Defined.

(** ** The participant subset of a parsed table *)

Lemma wellformed_row_canonical to_datetime r row :
  wellformed r ->
  build_row to_datetime r = Some row ->
  sender_canonical row <> [].
Proof.
  intros Hwf Hb. apply build_row_canonical in Hb as [_ ->].
  destruct (canonical_sender (rec_sender r)) as [c|] eqn:Ec.
  - apply canonical_sender_Some_word in Ec as [Hne _]. exact Hne.
  - apply (wf_sender r Hwf).
Qed.

(** X17: in the table of the records that [load_chat_records] returns no row
    has an empty canonical identity, so the participant subset is the
    table without its service rows. *)
Theorem user_df_of_parsed (to_datetime : str -> option Z)
    UPLOAD_DIR DATA_DIR records :
  load_chat_records UPLOAD_DIR DATA_DIR = OK records ->
  Forall (fun row => sender_canonical row <> [])
    (build_table to_datetime records)
  /\ user_df (build_table to_datetime records)
     = List.filter
         (fun r => negb (bool_decide (content_type r = py "service")))
         (build_table to_datetime records).
Proof.
  intros Hload. apply loaded_records_wellformed in Hload as [_ Hwf].
  assert (Hrows : Forall (fun row => sender_canonical row <> [])
                    (build_table to_datetime records)).
  { apply List.Forall_forall. intros row Hrow.
    apply build_row_In in Hrow as (r & Hr & Hb).
    rewrite List.Forall_forall in Hwf.
    eapply wellformed_row_canonical; [apply Hwf, Hr|exact Hb]. }
  split; [exact Hrows|]. unfold user_df.
  set (rows := List.filter _ (build_table to_datetime records)).
  assert (Hsub : Forall (fun row => sender_canonical row <> []) rows).
  { apply List.Forall_forall. intros row Hrow.
    apply filter_In in Hrow as [Hrow _].
    rewrite List.Forall_forall in Hrows. apply Hrows, Hrow. }
  clearbody rows. induction Hsub as [|row rows Hrow _ IH]; [reflexivity|].
  cbn [List.filter]. rewrite IH.
  destruct (sender_canonical row); [congruence|reflexivity].
Qed.

Lemma user_df_of_parsed_witness :
  exists records,
    load_chat_records sample_directory [] = OK records
    /\ Forall (fun row => sender_canonical row <> [])
         (build_table (fun _ => Some 0%Z) records)
    /\ user_df (build_table (fun _ => Some 0%Z) records)
       = List.filter
           (fun r => negb (bool_decide (content_type r = py "service")))
           (build_table (fun _ => Some 0%Z) records).
Proof.
  destruct (load_chat_records sample_directory []) as [records|e] eqn:E;
    [|vm_compute in E; discriminate].
  exists records. split; [reflexivity|].
  apply (user_df_of_parsed (fun _ => Some 0%Z) _ _ _ E).
Defined.

(** ** Group sizes and sums *)

Lemma groupby_size_lookup `{Countable K} (column : list K) k :
  groupby_size column !! k
  = match length (List.filter (fun x => bool_decide (x = k)) column) with
    | O => None
    | S n => Some (S n)
    end.
Proof.
  induction column as [|x column IH]; [apply lookup_empty|].
  unfold groupby_size in *. cbn [foldr List.filter].
  destruct (bool_decide (x = k)) eqn:E.
  - apply bool_decide_eq_true in E. subst x.
    rewrite lookup_insert_eq, IH. cbn [length].
    destruct (length _); reflexivity.
  - apply bool_decide_eq_false in E.
    rewrite lookup_insert_ne by exact E. exact IH.
Qed.

Lemma series_sum_insert `{Countable K} (m : gmap K nat) k v :
  (series_sum (<[k:=v]> m) + default 0 (m !! k) = v + series_sum m)%nat.
Proof.
  unfold series_sum. destruct (m !! k) as [c|] eqn:E;
    cbn [default from_option id].
  - rewrite <- (insert_delete_eq m k v).
    rewrite map_fold_insert_L; [|intros; lia|apply lookup_delete_eq].
    rewrite (map_fold_delete_L _ _ k c m); [lia|intros; lia|exact E].
  - rewrite map_fold_insert_L; [lia|intros; lia|exact E].
Qed.

Lemma groupby_size_sum `{Countable K} (column : list K) :
  series_sum (groupby_size column) = length column.
Proof.
  induction column as [|x column IH]; [reflexivity|].
  unfold groupby_size in *. cbn [foldr length].
  match goal with
  | |- series_sum (<[x:=?v]> ?m) = _ =>
      pose proof (series_sum_insert m x v) as Hs
  end.
  rewrite IH in Hs. lia.
Qed.

Lemma filter_andb_nil {A} (p q : A -> bool) l :
  List.filter p l = [] -> List.filter (fun x => p x && q x) l = [].
Proof.
  induction l as [|x l IH]; [reflexivity|]. cbn [List.filter].
  destruct (p x); [discriminate|]. exact IH.
Qed.

Lemma groupby_sum_lookup `{Countable K} (column : list (K * bool)) k :
  groupby_sum column !! k
  = match List.filter (fun kb => bool_decide (fst kb = k)) column with
    | [] => None
    | _ :: _ =>
        Some (length (List.filter
                        (fun kb => bool_decide (fst kb = k) && snd kb)
                        column))
    end.
Proof.
  induction column as [|[x b] column IH]; [apply lookup_empty|].
  unfold groupby_sum in *. cbn [foldr List.filter fst snd].
  destruct (bool_decide (x = k)) eqn:E.
  - apply bool_decide_eq_true in E. subst x.
    rewrite lookup_insert_eq, IH. cbn [andb].
    destruct (List.filter (fun kb => bool_decide (fst kb = k)) column)
      eqn:Ef.
    + rewrite (filter_andb_nil _ snd _ Ef). destruct b; reflexivity.
    + destruct b; reflexivity.
  - apply bool_decide_eq_false in E.
    rewrite lookup_insert_ne by exact E. cbn [andb]. exact IH.
Qed.

Lemma filter_map_length {A B} (f : A -> B) (q : B -> bool) l :
  length (List.filter q (List.map f l))
  = length (List.filter (fun x => q (f x)) l).
Proof.
  induction l as [|x l IH]; [reflexivity|].
  cbn [List.map List.filter]. destruct (q (f x)); cbn [length]; lia.
Qed.

Lemma filter_length_le {A} (p q : A -> bool) l :
  (forall x, p x = true -> q x = true) ->
  (length (List.filter p l) <= length (List.filter q l))%nat.
Proof.
  intros Hpq. induction l as [|x l IH]; [reflexivity|].
  cbn [List.filter]. destruct (p x) eqn:Ep.
  - rewrite (Hpq x Ep). cbn [length]. lia.
  - destruct (q x); cbn [length]; lia.
Qed.

Lemma filter_length_split {A} (p : A -> bool) l :
  (length (List.filter p l) + length (List.filter (fun x => negb (p x)) l)
   = length l)%nat.
Proof.
  induction l as [|x l IH]; [reflexivity|].
  cbn [List.filter]. destruct (p x); cbn [negb length]; lia.
Qed.

Lemma group_count {K} `{Countable K} (key : Row -> K) rows k n :
  groupby_size (List.map key rows) !! k = Some n
  <-> (0 < n)%nat
      /\ n = count_where (fun r => bool_decide (key r = k)) rows.
Proof.
  rewrite groupby_size_lookup, filter_map_length. unfold count_where.
  destruct (length _) as [|c]; split.
  - discriminate.
  - intros [? ?]. lia.
  - intros [= <-]. split; [lia|reflexivity].
  - intros [_ ->]. reflexivity.
Qed.

(** X18: each of the three size tables maps a key to the number of participant
    rows with that key, and holds no key without a row: a count is never
    0. *)
Theorem group_sizes_count (user_df : list Row) :
  (forall u n,
     messages_per_user user_df !! u = Some n
     <-> (0 < n)%nat
         /\ n = count_where (fun r => bool_decide (sender_canonical r = u))
                  user_df)
  /\ (forall d n,
        messages_per_day user_df !! d = Some n
        <-> (0 < n)%nat
            /\ n = count_where (fun r => bool_decide (day r = d)) user_df)
  /\ (forall h n,
        messages_per_hour user_df !! h = Some n
        <-> (0 < n)%nat
            /\ n = count_where (fun r => bool_decide (hour r = h)) user_df).
Proof.
  split; [|split]; intros k n; apply group_count.
Qed.

(** X19: the counts of each size table add up to the number of participant
    rows. *)
Theorem group_sizes_total (user_df : list Row) :
  series_sum (messages_per_user user_df) = length user_df
  /\ series_sum (messages_per_day user_df) = length user_df
  /\ series_sum (messages_per_hour user_df) = length user_df.
Proof.
  unfold messages_per_user, messages_per_day, messages_per_hour.
  rewrite !groupby_size_sum, !length_map. auto.
Qed.

(** X20: the reply table has an entry for every participant, 0 for one
    who never replied, and a participant has no more replies than
    messages. *)
Theorem replies_per_user_bound (user_df : list Row) u :
  (replies_per_user user_df !! u = None
   <-> messages_per_user user_df !! u = None)
  /\ (forall k,
        replies_per_user user_df !! u = Some k ->
        k = count_where
              (fun r => bool_decide (sender_canonical r = u) && is_reply r)
              user_df
        /\ exists n, messages_per_user user_df !! u = Some n /\ (k <= n)%nat).
Proof.
  unfold replies_per_user, messages_per_user.
  rewrite groupby_sum_lookup, groupby_size_lookup.
  rewrite !filter_map_length.
  pose proof (filter_length_le
                (fun r => bool_decide (sender_canonical r = u) && is_reply r)
                (fun r => bool_decide (sender_canonical r = u)) user_df) as Hle.
  assert (Hlen :
    length (List.filter (fun kb : str * bool => bool_decide (fst kb = u))
              (List.map (fun r => (sender_canonical r, is_reply r)) user_df))
    = length (List.filter (fun r => bool_decide (sender_canonical r = u))
                user_df)).
  { apply (filter_map_length (fun r => (sender_canonical r, is_reply r))
             (fun kb => bool_decide (fst kb = u))). }
  cbn [fst snd] in *.
  destruct (List.filter _ (List.map _ user_df)) as [|kb l];
    cbn [length] in Hlen; rewrite <- Hlen.
  - split; [tauto|discriminate].
  - split; [split; discriminate|].
    intros k [= <-]. split; [reflexivity|].
    eexists. split; [reflexivity|].
    rewrite Hlen. apply Hle. intros r Hr. apply andb_prop in Hr. tauto.
Qed.

Lemma user_df_sub df r : In r (user_df df) -> In r df.
Proof.
  unfold user_df. intros H. apply filter_In in H as [H _].
  apply filter_In in H as [H _]. exact H.
Qed.

(** X21: the hour table of a table built by [compute_stats] has hours of the
    day as keys only, hence at most 24 entries. *)
Theorem messages_per_hour_range (to_datetime : str -> option Z) records :
  (forall h n,
     messages_per_hour (user_df (build_table to_datetime records)) !! h
     = Some n -> (0 <= h < 24)%Z)
  /\ (size (messages_per_hour (user_df (build_table to_datetime records)))
      <= 24)%nat.
Proof.
  set (users := user_df (build_table to_datetime records)).
  assert (Hkeys : forall h n,
             messages_per_hour users !! h = Some n -> (0 <= h < 24)%Z).
  { intros h n Hn. apply group_count in Hn as [Hpos ->].
    unfold count_where in Hpos.
    destruct (List.filter _ users) as [|row l] eqn:Ef; [cbn in Hpos; lia|].
    assert (Hin : In row (List.filter
                            (fun r => bool_decide (hour r = h)) users))
      by (rewrite Ef; left; reflexivity).
    apply filter_In in Hin as [Hin Hh]. apply bool_decide_eq_true in Hh.
    apply user_df_sub, build_row_In in Hin as (r & _ & Hb).
    apply build_row_hour in Hb. lia. }
  split; [exact Hkeys|].
  rewrite <- size_dom.
  transitivity (size (list_to_set (seqZ 0 24) : gset Z)).
  - apply subseteq_size. intros h Hh. apply elem_of_dom in Hh as [n Hn].
    apply elem_of_list_to_set, elem_of_seqZ. apply Hkeys in Hn. lia.
  - rewrite size_list_to_set by apply NoDup_seqZ.
    rewrite length_seqZ. reflexivity.
Qed.

Lemma value_counts_groupby l : value_counts l = groupby_size l.
Proof. reflexivity. Qed.

(** X22: of the two content counts, ["text"] is the number of participant rows
    of content type ["text"] and ["other"] the number of all others; the
    two add up to the number of participant rows. *)
Theorem content_types_counts (user_df : list Row) :
  content_types user_df
  = [ (py "text",
       count_where (fun r => bool_decide (content_type r = py "text"))
         user_df);
      (py "other",
       count_where (fun r => negb (bool_decide (content_type r = py "text")))
         user_df) ]
  /\ list_sum (List.map snd (content_types user_df)) = length user_df.
Proof.
  assert (Htext :
    default 0%nat (value_counts (List.map content_type user_df) !! py "text")
    = count_where (fun r => bool_decide (content_type r = py "text"))
        user_df).
  { rewrite value_counts_lookup, filter_map_length. unfold count_where.
    destruct (length _); reflexivity. }
  assert (Hsum : series_sum (value_counts (List.map content_type user_df))
                 = length user_df).
  { rewrite value_counts_groupby, groupby_size_sum. apply length_map. }
  pose proof (filter_length_split
                (fun r => bool_decide (content_type r = py "text")) user_df)
    as Hsplit.
  unfold content_types. cbv zeta. rewrite Htext, Hsum.
  unfold count_where in *. split.
  - repeat (apply (f_equal2 cons); [|try reflexivity]).
    + reflexivity.
    + f_equal. lia.
  - cbn [List.map snd list_sum fold_right]. unfold list_sum.
    cbn [fold_right]. lia.
Qed.

(** ** Weekdays *)

Lemma day_name_once d :
  list_sum
    (List.map (fun name => if bool_decide (day_name d = name) then 1%nat
                           else 0%nat) WEEKDAY_ORDER) = 1%nat.
Proof.
  unfold day_name.
  assert (Hi : (Z.to_nat ((d / 86400 + 3) mod 7) < 7)%nat).
  { pose proof (Z.mod_pos_bound (d / 86400 + 3) 7 ltac:(lia)). lia. }
  destruct (Z.to_nat ((d / 86400 + 3) mod 7)) as [|[|[|[|[|[|[|i]]]]]]];
    try (vm_compute; reflexivity).
  lia.
Qed.

Lemma list_sum_counts {A B} (p : B -> A -> bool) (x : A) l names :
  list_sum (List.map (fun name => length (List.filter (p name) (x :: l)))
              names)
  = (list_sum (List.map (fun name => if p name x then 1 else 0) names)
     + list_sum (List.map (fun name => length (List.filter (p name) l))
                   names))%nat.
Proof.
  assert (Hcons : forall a k, list_sum (a :: k) = (a + list_sum k)%nat)
    by reflexivity.
  induction names as [|name names IH]; [reflexivity|].
  cbn [List.map]. rewrite !Hcons, IH. cbn [List.filter].
  destruct (p name x); cbn [length]; lia.
Qed.

Lemma weekday_counts_eq (user_df : list Row) :
  weekday_counts user_df
  = List.map
      (fun name =>
         (name,
          length (List.filter
                    (fun r => bool_decide (day_name (date r) = name))
                    user_df)))
      WEEKDAY_ORDER.
Proof.
  unfold weekday_counts. cbv zeta. apply map_ext. intros name.
  rewrite groupby_size_lookup, filter_map_length.
  destruct (length _); reflexivity.
Qed.

(** X23: the weekday counts list the seven days from Monday to Sunday, each
    with the number of participant rows of that weekday, and add up to the
    number of participant rows: the reindexing drops no row. *)
Theorem weekday_counts_total (user_df : list Row) :
  List.map fst (weekday_counts user_df) = WEEKDAY_ORDER
  /\ (forall name n,
        In (name, n) (weekday_counts user_df) ->
        n = count_where (fun r => bool_decide (day_name (date r) = name))
              user_df)
  /\ list_sum (List.map snd (weekday_counts user_df)) = length user_df.
Proof.
  rewrite weekday_counts_eq. split; [|split].
  - rewrite List.map_map. cbn [fst]. apply List.map_id.
  - intros name n Hin. apply in_map_iff in Hin as (name' & [= <- <-] & _).
    reflexivity.
  - rewrite List.map_map. cbn [snd].
    induction user_df as [|row rows IH]; [reflexivity|].
    rewrite (list_sum_counts
               (fun name r => bool_decide (day_name (date r) = name))).
    rewrite IH, day_name_once. reflexivity.
Qed.

(** ** The list of participants *)

Lemma str_leb_total a : forall b, str_leb a b = false -> str_leb b a = true.
Proof.
  induction a as [|x a IH]; intros [|y b]; cbn [str_leb]; try discriminate;
    try reflexivity.
  intros H. apply orb_false_elim in H as [H1 H2].
  apply N.ltb_ge in H1. apply orb_true_iff.
  destruct (N.eqb_spec x y) as [->|Hne].
  - right. rewrite N.eqb_refl. cbn [andb] in *. apply IH, H2.
  - left. apply N.ltb_lt. lia.
Qed.

Lemma str_leb_trans a : forall b c,
  str_leb a b = true -> str_leb b c = true -> str_leb a c = true.
Proof.
  induction a as [|x a IH]; intros [|y b] [|z c]; cbn [str_leb];
    try discriminate; try reflexivity.
  rewrite !orb_true_iff, !andb_true_iff, !N.ltb_lt, !N.eqb_eq.
  intros [H1|[-> H1]] [H2|[-> H2]].
  - left. lia.
  - left. exact H1.
  - left. exact H2.
  - right. split; [reflexivity|]. eapply IH; eassumption.
Qed.

Lemma str_leb_antisym a : forall b,
  str_leb a b = true -> str_leb b a = true -> a = b.
Proof.
  induction a as [|x a IH]; intros [|y b]; cbn [str_leb];
    try discriminate; try reflexivity.
  rewrite !orb_true_iff, !andb_true_iff, !N.ltb_lt, !N.eqb_eq.
  intros [H1|[-> H1]] [H2|[H2 H3]]; try lia.
  f_equal. apply IH; assumption.
Qed.

Lemma unique_In l x : In x (unique l) <-> In x l.
Proof.
  induction l as [|y l IH]; [reflexivity|].
  cbn [unique In]. rewrite filter_In, IH.
  destruct (decide (x = y)) as [->|Hne].
  - tauto.
  - rewrite negb_true_iff, bool_decide_eq_false. split.
    + intros [H|[H _]]; auto.
    + intros [H|H]; [auto|]. right. auto.
Qed.

Lemma unique_NoDup l : List.NoDup (unique l).
Proof.
  induction l as [|y l IH]; [constructor|].
  cbn [unique]. constructor.
  - rewrite filter_In, negb_true_iff, bool_decide_eq_false. tauto.
  - apply List.NoDup_filter, IH.
Qed.

Lemma groupby_size_dom `{Countable K} (column : list K) :
  dom (groupby_size column) = (list_to_set column : gset K).
Proof.
  apply set_eq. intros k. rewrite elem_of_dom, elem_of_list_to_set.
  rewrite groupby_size_lookup, list_elem_of_In. split.
  - intros [n Hn].
    destruct (List.filter _ column) as [|x l] eqn:Ef; [discriminate|].
    assert (Hx : In x (List.filter (fun x => bool_decide (x = k)) column))
      by (rewrite Ef; left; reflexivity).
    apply filter_In in Hx as [Hx Hk]. apply bool_decide_eq_true in Hk.
    subst. exact Hx.
  - intros Hin.
    assert (Hx : In k (List.filter (fun x => bool_decide (x = k)) column))
      by (apply filter_In; split; [exact Hin|apply bool_decide_eq_true;
                                              reflexivity]).
    destruct (List.filter _ column); [destruct Hx|]. cbn [length]. eauto.
Qed.

(** X24: the participants of the meta data are the canonical identities of the
    participant rows, each once and in ascending order, as many as the
    user table has entries. *)
Theorem meta_users_sorted (user_df : list Row) :
  (forall u, In u (meta_users user_df)
             <-> exists r, In r user_df /\ sender_canonical r = u)
  /\ List.NoDup (meta_users user_df)
  /\ StronglySorted (fun a b => str_leb a b = true /\ a <> b)
       (meta_users user_df)
  /\ length (meta_users user_df) = size (messages_per_user user_df).
Proof.
  unfold meta_users.
  set (names := List.map sender_canonical user_df).
  pose proof (stable_sort_Permutation str_leb (unique names)) as Hperm.
  assert (Hnd : List.NoDup (stable_sort str_leb (unique names))).
  { eapply Permutation_NoDup; [symmetry; exact Hperm|apply unique_NoDup]. }
  split; [|split; [exact Hnd|split]].
  - intros u. rewrite (Permutation_in' eq_refl Hperm), unique_In.
    unfold names. rewrite in_map_iff.
    split; intros (r & H1 & H2); exists r; auto.
  - pose proof (stable_sort_StronglySorted str_leb str_leb_total
                  str_leb_trans (unique names)) as Hs.
    revert Hnd Hs. generalize (stable_sort str_leb (unique names)).
    intros l Hnd Hs. induction Hs as [|a l Hs IH Ha]; [constructor|].
    inversion Hnd as [|? ? Hnotin Hnd']; subst.
    constructor; [apply IH, Hnd'|].
    apply List.Forall_forall. intros b Hb. split.
    + rewrite List.Forall_forall in Ha. apply Ha, Hb.
    + intros ->. contradiction.
  - rewrite (Permutation_length Hperm). unfold messages_per_user.
    rewrite <- size_dom, groupby_size_dom. fold names.
    assert (Heq : (list_to_set names : gset str)
                  = list_to_set (unique names)).
    { apply set_eq. intros u. rewrite !elem_of_list_to_set.
      rewrite !list_elem_of_In, unique_In. reflexivity. }
    rewrite Heq, size_list_to_set; [reflexivity|].
    apply NoDup_ListNoDup, unique_NoDup.
Qed.

(** ** Starters and messages *)

Lemma select_length {A} (l : list A) : forall mask,
  (length (select l mask) <= length l)%nat.
Proof.
  induction l as [|x l IH]; intros [|b mask]; cbn [select length]; try lia.
  specialize (IH mask). destruct b; cbn [length]; lia.
Qed.

Lemma select_filter_length {A} (p : A -> bool) (l : list A) : forall mask,
  (length (List.filter p (select l mask)) <= length (List.filter p l))%nat.
Proof.
  induction l as [|x l IH]; intros [|b mask]; cbn [select List.filter length];
    try lia.
  specialize (IH mask). destruct b; cbn [List.filter];
    destruct (p x); cbn [length]; lia.
Qed.

Lemma Permutation_filter_length {A} (p : A -> bool) l l' :
  Permutation l l' ->
  length (List.filter p l) = length (List.filter p l').
Proof.
  induction 1 as [|x l l' _ IH|x y l|l l' l'' _ IH1 _ IH2];
    cbn [List.filter]; try reflexivity.
  - destruct (p x); cbn [length]; lia.
  - destruct (p x), (p y); reflexivity.
  - lia.
Qed.

Lemma conversation_starters_length s :
  (length (conversation_starters s) <= length s - 1)%nat.
Proof.
  unfold conversation_starters, starter_mask, time_diff.
  destruct s as [|r s]; [reflexivity|].
  cbn [List.map diff gt_timedelta select length].
  pose proof (select_length s
                (List.map (gt_timedelta SIX_HOURS)
                   (diff_from (date r) (List.map date s)))). lia.
Qed.

(** X25: the first row of the sorted table never starts a conversation: in
    every arrangement of the participant rows there are fewer starters
    than rows, and no participant has more starters than messages. *)
Theorem starters_per_user_bound (user_df df_sorted : list Row) :
  Permutation df_sorted user_df ->
  (series_sum (starters_per_user df_sorted) <= length user_df - 1)%nat
  /\ (forall u k,
        starters_per_user df_sorted !! u = Some k ->
        (0 < k)%nat
        /\ exists n, messages_per_user user_df !! u = Some n /\ (k <= n)%nat).
Proof.
  intros Hperm. unfold starters_per_user. split.
  - rewrite value_counts_groupby, groupby_size_sum, length_map.
    rewrite <- (Permutation_length Hperm).
    apply conversation_starters_length.
  - intros u k. rewrite value_counts_groupby. intros Hk.
    apply group_count in Hk as [Hpos ->]. split; [exact Hpos|].
    unfold count_where in *.
    set (p := fun r => bool_decide (sender_canonical r = u)) in *.
    assert (Hle : (length (List.filter p (conversation_starters df_sorted))
                   <= length (List.filter p user_df))%nat).
    { rewrite <- (Permutation_filter_length p _ _ Hperm).
      apply select_filter_length. }
    exists (length (List.filter p user_df)). split; [|exact Hle].
    apply group_count. split; [lia|reflexivity].
Qed.

Lemma starters_per_user_bound_witness :
  Permutation (sort_values (user_df sample_df)) (user_df sample_df)
  /\ (series_sum (starters_per_user (sort_values (user_df sample_df)))
      <= length (user_df sample_df) - 1)%nat.
Proof.
  pose proof (sort_values_Permutation (user_df sample_df)) as Hp.
  split; [exact Hp|]. apply (starters_per_user_bound _ _ Hp).
Defined.

(** ** Counters *)

Lemma counter_get_bump k k' c :
  counter_get k' (bump k c)
  = ((if bool_decide (k = k') then 1 else 0) + counter_get k' c)%nat.
Proof.
  unfold counter_get. induction c as [|[k0 n] c IH].
  - cbn [bump List.find fst snd]. destruct (bool_decide (k = k')); reflexivity.
  - cbn [bump]. destruct (bool_decide (k0 = k)) eqn:E0.
    + apply bool_decide_eq_true in E0. subst k0.
      cbn [List.find fst snd].
      destruct (bool_decide (k = k')); cbn [snd]; [reflexivity|reflexivity].
    + apply bool_decide_eq_false in E0. cbn [List.find fst snd].
      destruct (bool_decide (k0 = k')) eqn:E1; [|exact IH].
      apply bool_decide_eq_true in E1. subst k0.
      rewrite bool_decide_eq_false_2 by congruence. reflexivity.
Qed.

Lemma bump_keys k k' c :
  In k' (List.map fst (bump k c)) <-> k' = k \/ In k' (List.map fst c).
Proof.
  induction c as [|[k0 n] c IH].
  - cbn. split; [intros [H|[]]; auto|intros [H|[]]; auto].
  - cbn [bump]. destruct (bool_decide (k0 = k)) eqn:E0.
    + apply bool_decide_eq_true in E0. subst k0. cbn [List.map fst In].
      split; [tauto|]. intros [->|H]; auto.
    + cbn [List.map fst In]. rewrite IH. tauto.
Qed.

Lemma bump_NoDup k c :
  List.NoDup (List.map fst c) -> List.NoDup (List.map fst (bump k c)).
Proof.
  induction c as [|[k0 n] c IH]; intros Hnd.
  - cbn. constructor; [intros []|constructor].
  - cbn [bump]. destruct (bool_decide (k0 = k)) eqn:E0; [exact Hnd|].
    apply bool_decide_eq_false in E0. cbn [List.map fst] in *.
    inversion Hnd as [|? ? Hnotin Hnd']; subst. constructor.
    + rewrite bump_keys. intros [H|H]; [congruence|contradiction].
    + apply IH, Hnd'.
Qed.

Lemma bump_positive k c :
  Forall (fun p => (0 < snd p)%nat) c ->
  Forall (fun p => (0 < snd p)%nat) (bump k c).
Proof.
  induction 1 as [|[k0 n] c Hp Hc IH].
  - cbn. repeat constructor.
  - cbn [bump]. destruct (bool_decide (k0 = k)).
    + constructor; [cbn; lia|exact Hc].
    + constructor; [exact Hp|exact IH].
Qed.

Lemma counter_get_In k n c :
  List.NoDup (List.map fst c) -> In (k, n) c -> counter_get k c = n.
Proof.
  unfold counter_get. induction c as [|[k0 n0] c IH]; intros Hnd Hin;
    [destruct Hin|].
  cbn [List.map fst] in Hnd. inversion Hnd as [|? ? Hnotin Hnd']; subst.
  cbn [List.find fst]. destruct Hin as [[= -> ->]|Hin].
  - rewrite bool_decide_eq_true_2 by reflexivity. reflexivity.
  - destruct (bool_decide (k0 = k)) eqn:E0.
    + apply bool_decide_eq_true in E0. subst k0. exfalso. apply Hnotin.
      apply in_map_iff. exists (k, n). auto.
    + apply IH; assumption.
Qed.

Lemma counter_get_keys k c :
  In k (List.map fst c) -> In (k, counter_get k c) c.
Proof.
  unfold counter_get. induction c as [|[k0 n0] c IH]; [intros []|].
  cbn [List.map fst In List.find].
  destruct (bool_decide (k0 = k)) eqn:E0.
  - apply bool_decide_eq_true in E0. subst k0. intros _. left. reflexivity.
  - apply bool_decide_eq_false in E0. intros [H|H]; [congruence|].
    right. apply IH, H.
Qed.

Lemma Counter_from l : forall acc,
  let c := fold_left (fun c k => bump k c) l acc in
  (List.NoDup (List.map fst acc) -> List.NoDup (List.map fst c))
  /\ (Forall (fun p => (0 < snd p)%nat) acc ->
      Forall (fun p => (0 < snd p)%nat) c)
  /\ (forall k, In k (List.map fst c) <-> In k l \/ In k (List.map fst acc))
  /\ (forall k,
        counter_get k c
        = (length (List.filter (fun x => bool_decide (x = k)) l)
           + counter_get k acc)%nat).
Proof.
  induction l as [|x l IH]; intros acc; cbn zeta.
  - cbn [fold_left In List.filter length]. repeat split; auto; tauto.
  - cbn [fold_left]. destruct (IH (bump x acc)) as (H1 & H2 & H3 & H4).
    cbn zeta in *. split; [|split; [|split]].
    + intros Hnd. apply H1, bump_NoDup, Hnd.
    + intros Hp. apply H2, bump_positive, Hp.
    + intros k. rewrite H3, bump_keys. cbn [In]. intuition congruence.
    + intros k. rewrite H4, counter_get_bump. cbn [List.filter].
      destruct (bool_decide (x = k)); cbn [length]; lia.
Qed.

Lemma Counter_NoDup l : List.NoDup (List.map fst (Counter l)).
Proof. apply (Counter_from l []). constructor. Qed.

Lemma Counter_get l k : counter_get k (Counter l) = occurrences k l.
Proof.
  destruct (Counter_from l []) as (_ & _ & _ & H4). cbn zeta in H4.
  unfold Counter, occurrences. rewrite H4. apply Nat.add_0_r.
Qed.

Lemma Counter_keys l k : In k (List.map fst (Counter l)) <-> In k l.
Proof.
  destruct (Counter_from l []) as (_ & _ & H3 & _). cbn zeta in H3.
  unfold Counter. rewrite H3. cbn [List.map In]. tauto.
Qed.

Lemma Counter_In l k n :
  In (k, n) (Counter l) <-> In k l /\ n = occurrences k l.
Proof.
  split.
  - intros Hin. split.
    + apply Counter_keys. apply in_map_iff. exists (k, n). auto.
    + apply counter_get_In in Hin; [|apply Counter_NoDup].
      rewrite Counter_get in Hin. congruence.
  - intros [Hin ->]. rewrite <- Counter_get.
    apply counter_get_keys, Counter_keys, Hin.
Qed.

Lemma occurrences_pos k l : In k l -> (0 < occurrences k l)%nat.
Proof.
  intros Hin. unfold occurrences.
  assert (H : In k (List.filter (fun x => bool_decide (x = k)) l)).
  { apply filter_In. split; [exact Hin|].
    apply bool_decide_eq_true. reflexivity. }
  destruct (List.filter _ l); [destruct H|cbn; lia].
Qed.

Lemma StronglySorted_app_inv' {A} (R : A -> A -> Prop) a b :
  StronglySorted R (a ++ b) ->
  StronglySorted R a /\ forall x y, In x a -> In y b -> R x y.
Proof.
  induction a as [|x a IH]; cbn [app]; intros H.
  - split; [constructor|intros x y []].
  - inversion H as [|? ? Hs Hx]; subst. destruct (IH Hs) as [IH1 IH2].
    split.
    + constructor; [exact IH1|]. apply Forall_app in Hx. tauto.
    + intros x' y [<-|Hx'] Hy.
      * rewrite List.Forall_forall in Hx. apply Hx, in_or_app. auto.
      * apply IH2; assumption.
Qed.

(** What [most_common] returns on a counter. *)
Lemma most_common_spec n l :
  let top := most_common n (Counter l) in
  (length top <= n)%nat
  /\ List.NoDup (List.map fst top)
  /\ (forall k c, In (k, c) top ->
                  In k l /\ (0 < c)%nat /\ c = occurrences k l)
  /\ StronglySorted (fun a b => (snd b <= snd a)%nat) top
  /\ (forall k, In k l -> ~ In k (List.map fst top) ->
                length top = n
                /\ forall k' c', In (k', c') top ->
                                 (occurrences k l <= c')%nat).
Proof.
  cbn zeta. unfold most_common.
  set (le := fun a b : str * nat => (snd b <=? snd a)%nat).
  set (sorted := stable_sort le (Counter l)).
  pose proof (stable_sort_Permutation le (Counter l)) as Hperm.
  fold sorted in Hperm.
  assert (Hs : StronglySorted (fun a b => (snd b <= snd a)%nat) sorted).
  { eapply StronglySorted_weaken;
      [|apply (stable_sort_StronglySorted le)].
    - intros a b H. apply Nat.leb_le, H.
    - intros x y H. apply Nat.leb_gt in H. apply Nat.leb_le. lia.
    - intros x y z H1 H2. apply Nat.leb_le in H1, H2. apply Nat.leb_le.
      lia. }
  pose proof (take_drop n sorted) as Hsplit.
  assert (Hsub : forall p, In p (take n sorted) -> In p (Counter l)).
  { intros p Hp. apply (Permutation_in _ Hperm).
    rewrite <- Hsplit. apply in_or_app. auto. }
  rewrite <- Hsplit in Hs. apply StronglySorted_app_inv' in Hs as [Hs1 Hs2].
  split; [|split; [|split; [|split]]].
  - rewrite length_take. lia.
  - assert (Hnd : List.NoDup (List.map fst sorted)).
    { eapply Permutation_NoDup; [|apply (Counter_NoDup l)].
      apply Permutation_map. symmetry. exact Hperm. }
    rewrite <- Hsplit, List.map_app in Hnd.
    apply List.NoDup_app_remove_r in Hnd. exact Hnd.
  - intros k c Hin. apply Hsub, Counter_In in Hin as [Hin ->].
    split; [exact Hin|]. split; [apply occurrences_pos, Hin|reflexivity].
  - exact Hs1.
  - intros k Hin Hnot.
    assert (Hk : In (k, occurrences k l) sorted).
    { apply (Permutation_in _ (Permutation_sym Hperm)).
      apply Counter_In. auto. }
    rewrite <- Hsplit in Hk. apply in_app_or in Hk as [Hk|Hk].
    { exfalso. apply Hnot. apply in_map_iff. exists (k, occurrences k l).
      auto. }
    split.
    + rewrite length_take.
      destruct (Nat.le_gt_cases (length sorted) n) as [Hle|Hgt]; [|lia].
      rewrite drop_ge in Hk by exact Hle. destruct Hk.
    + intros k' c' Hin'. apply (Hs2 _ _ Hin' Hk).
Qed.

(** ** Emojis *)

Lemma emojis_In e (user_df : list Row) :
  In e (emojis user_df)
  <-> exists c r, e = [c] /\ Str.in_class EMOJI_PATTERN c = true
                  /\ In r user_df /\ In c (text r).
Proof.
  unfold emojis, findall_char. rewrite in_concat. split.
  - intros (chunk & Hchunk & He).
    apply in_map_iff in Hchunk as (r & <- & Hr).
    apply in_map_iff in He as (c & <- & Hc).
    apply filter_In in Hc as [Hc Hcls]. exists c, r. auto.
  - intros (c & r & -> & Hcls & Hr & Hc).
    exists (List.map (fun c => [c])
              (List.filter (Str.in_class EMOJI_PATTERN) (text r))).
    split.
    + apply in_map_iff. exists r. auto.
    + apply in_map_iff. exists c. split; [reflexivity|].
      apply filter_In. auto.
Qed.

Lemma occurrences_app k a b :
  occurrences k (a ++ b) = (occurrences k a + occurrences k b)%nat.
Proof.
  unfold occurrences. rewrite List.filter_app, length_app. reflexivity.
Qed.

Lemma occurrences_findall_char cls c s :
  Str.in_class cls c = true ->
  occurrences [c] (findall_char cls s)
  = length (List.filter (fun x => x =? c) s).
Proof.
  intros Hc. unfold occurrences, findall_char.
  induction s as [|x s IH]; [reflexivity|].
  cbn [List.filter]. destruct (N.eqb_spec x c) as [->|Hne].
  - rewrite Hc. cbn [List.map List.filter].
    rewrite bool_decide_eq_true_2 by reflexivity. cbn [length].
    rewrite IH. reflexivity.
  - destruct (Str.in_class cls x); [|exact IH].
    cbn [List.map List.filter].
    rewrite bool_decide_eq_false_2 by congruence. exact IH.
Qed.

Lemma occurrences_emojis c (user_df : list Row) :
  Str.in_class EMOJI_PATTERN c = true ->
  occurrences [c] (emojis user_df)
  = list_sum
      (List.map (fun r => length (List.filter (fun x => x =? c) (text r)))
         user_df).
Proof.
  intros Hc. unfold emojis. induction user_df as [|r rows IH]; [reflexivity|].
  cbn [List.map concat]. rewrite occurrences_app, IH.
  rewrite occurrences_findall_char by exact Hc. reflexivity.
Qed.

(** X26: the emoji ranking lists at most ten emoji characters, each once and
    with the number of its occurrences in the participant texts, by
    descending count; an emoji that occurs but is not listed occurs no
    more often than any listed one, and then the list is full. *)
Theorem top_emojis_ranking (user_df : list Row) :
  (length (top_emojis user_df) <= 10)%nat
  /\ List.NoDup (List.map fst (top_emojis user_df))
  /\ StronglySorted (fun a b => (snd b <= snd a)%nat) (top_emojis user_df)
  /\ (forall e n,
        In (e, n) (top_emojis user_df) ->
        exists c,
          e = [c] /\ Str.in_class EMOJI_PATTERN c = true /\ (0 < n)%nat
          /\ n = list_sum
                   (List.map
                      (fun r =>
                         length (List.filter (fun x => x =? c) (text r)))
                      user_df))
  /\ (forall c r,
        Str.in_class EMOJI_PATTERN c = true ->
        In r user_df -> In c (text r) ->
        ~ In [c] (List.map fst (top_emojis user_df)) ->
        length (top_emojis user_df) = 10%nat
        /\ forall e n, In (e, n) (top_emojis user_df) ->
                       (occurrences [c] (emojis user_df) <= n)%nat).
Proof.
  unfold top_emojis.
  destruct (most_common_spec 10 (emojis user_df)) as (H1 & H2 & H3 & H4 & H5).
  cbn zeta in *. split; [exact H1|]. split; [exact H2|].
  split; [exact H4|]. split.
  - intros e n Hin. apply H3 in Hin as (Hin & Hpos & ->).
    apply emojis_In in Hin as (c & r & -> & Hcls & _).
    exists c. split; [reflexivity|]. split; [exact Hcls|].
    split; [exact Hpos|]. apply occurrences_emojis, Hcls.
  - intros c r Hcls Hr Hc Hnot. apply H5; [|exact Hnot].
    apply emojis_In. exists c, r. auto.
Qed.

(** ** Words *)

Lemma findall_plus_tokens cls s :
  Forall (fun tok => tok <> []
                     /\ Forall (fun c => Str.in_class cls c = true) tok)
    (findall_plus cls s).
Proof.
  induction s as [|c s IH]; [constructor|].
  cbn [findall_plus]. destruct (Str.in_class cls c) eqn:Ec; [|exact IH].
  destruct s as [|d s'].
  - repeat constructor; [discriminate|assumption].
  - destruct (Str.in_class cls d) eqn:Ed.
    + destruct (findall_plus cls (d :: s')) as [|tok rest].
      * repeat constructor; [discriminate|assumption].
      * inversion IH as [|? ? [Hne Htok] Hrest]; subst.
        constructor; [|exact Hrest].
        split; [discriminate|constructor; assumption].
    + constructor; [|exact IH].
      split; [discriminate|repeat constructor; assumption].
Qed.

Lemma filtered_words_In lower (user_df : list Row) w :
  In w (filtered_words lower user_df) ->
  (w ∉ STOPWORDS) /\ (2 < length w)%nat
  /\ Forall (fun c => Str.in_class WORD_REGEX c = true) w
  /\ exists r, In r user_df /\ In w (extract_words lower (text r)).
Proof.
  unfold filtered_words, all_words. intros H.
  apply filter_In in H as [Hin Hf]. apply andb_prop in Hf as [Hs Hl].
  apply negb_true_iff, bool_decide_eq_false in Hs.
  apply Nat.ltb_lt in Hl. apply in_concat in Hin as (chunk & Hchunk & Hw).
  apply in_map_iff in Hchunk as (r & <- & Hr).
  split; [exact Hs|]. split; [exact Hl|]. split; [|eauto].
  pose proof (findall_plus_tokens WORD_REGEX (lower (text r))) as Ht.
  rewrite List.Forall_forall in Ht. apply Ht in Hw. tauto.
Qed.

(** X27: the word ranking lists at most twenty words, each once, by descending
    count, with the number of occurrences among the filtered words; a
    listed word is a run of characters of the word class found in a
    lower-cased participant text, is longer than two characters and is no
    stop word. *)
Theorem top_words_ranking (lower : str -> str) (user_df : list Row) :
  (length (top_words lower user_df) <= 20)%nat
  /\ List.NoDup (List.map fst (top_words lower user_df))
  /\ StronglySorted (fun a b => (snd b <= snd a)%nat)
       (top_words lower user_df)
  /\ (forall w n,
        In (w, n) (top_words lower user_df) ->
        (w ∉ STOPWORDS) /\ (2 < length w)%nat
        /\ Forall (fun c => Str.in_class WORD_REGEX c = true) w
        /\ (exists r, In r user_df /\ In w (extract_words lower (text r)))
        /\ (0 < n)%nat
        /\ n = occurrences w (filtered_words lower user_df)).
Proof.
  unfold top_words.
  destruct (most_common_spec 20 (filtered_words lower user_df))
    as (H1 & H2 & H3 & H4 & _).
  cbn zeta in *. split; [exact H1|]. split; [exact H2|].
  split; [exact H4|].
  intros w n Hin. apply H3 in Hin as (Hin & Hpos & ->).
  apply filtered_words_In in Hin as (Hs & Hl & Hc & Hr).
  split; [exact Hs|]. split; [exact Hl|]. split; [exact Hc|].
  split; [exact Hr|]. split; [exact Hpos|reflexivity].
Qed.

(** ** The summary view *)

Lemma peak_loop l : peak_of l (fold_left peak_step l ([], 0%Z)).
Proof.
  induction l as [|x l IH] using rev_ind.
  - cbn. split; [intros e []|left; auto].
  - rewrite fold_left_app. cbn [fold_left].
    destruct (fold_left peak_step l ([], 0%Z)) as [d c].
    destruct IH as [Hmax Hpeak]. unfold peak_step, peak_of.
    destruct (Z.ltb_spec c (default 0%Z (entry_value x))) as [Hlt|Hge].
    + split.
      * intros e He. apply in_app_or in He as [He|[<-|[]]]; [|lia].
        apply Hmax in He. lia.
      * right. exists (length l), x.
        rewrite list_lookup_middle by reflexivity.
        split; [reflexivity|]. split; [reflexivity|].
        split; [reflexivity|]. split.
        { destruct Hpeak as [[-> _]|(i & e & _ & _ & _ & Hpos & _)]; lia. }
        intros j e' Hj He'. rewrite lookup_app_l in He' by exact Hj.
        assert (Hin : In e' l)
          by (apply list_elem_of_In, list_elem_of_lookup; eauto).
        apply Hmax in Hin. lia.
    + split.
      * intros e He. apply in_app_or in He as [He|[<-|[]]]; [|lia].
        apply Hmax, He.
      * destruct Hpeak as [[-> ->]|(i & e & Hi & Hv & Hd & Hpos & Hfirst)];
          [left; auto|].
        right. exists i, e.
        assert (Hlen : (i < length l)%nat)
          by (apply lookup_lt_is_Some; eauto).
        rewrite lookup_app_l by exact Hlen.
        repeat (split; [assumption|]).
        intros j e' Hj He'. rewrite lookup_app_l in He' by lia.
        eapply Hfirst; eassumption.
Qed.

(** X28: the peak of the summary is the first entry with the largest count,
    provided that count is positive; otherwise the peak is the empty date
    with count 0.  The number of active days is 0 exactly in that second
    case. *)
Theorem build_summary_peak (stats : Stats) :
  let entries := default [] (stats_messages_per_day stats) in
  let summary := _build_summary stats in
  (forall e, In e entries ->
             (default 0 (entry_value e) <= peakMessageCount summary)%Z)
  /\ ((peakMessageCount summary = 0%Z /\ peakActivityDate summary = [])
      \/ exists i e,
           entries !! i = Some e
           /\ default 0%Z (entry_value e) = peakMessageCount summary
           /\ default [] (entry_day e) = peakActivityDate summary
           /\ (0 < peakMessageCount summary)%Z
           /\ forall j e', (j < i)%nat -> entries !! j = Some e' ->
                (default 0 (entry_value e') < peakMessageCount summary)%Z)
  /\ (activeDays summary = 0%nat <-> peakMessageCount summary = 0%Z).
Proof.
  cbn zeta. unfold _build_summary.
  set (entries := default [] (stats_messages_per_day stats)).
  pose proof (peak_loop entries) as Hloop.
  destruct (fold_left peak_step entries ([], 0%Z)) as [d c].
  cbn [peakMessageCount peakActivityDate activeDays].
  destruct Hloop as [Hmax Hpeak]. split; [exact Hmax|].
  split; [exact Hpeak|]. rewrite length_zero_iff_nil. split.
  - intros Hnil.
    destruct Hpeak as [[-> _]|(i & e & Hi & Hv & _ & Hpos & _)];
      [reflexivity|].
    exfalso.
    assert (Hin : In e (List.filter
                          (fun entry =>
                             (0 <? default 0 (entry_value entry))%Z)
                          entries)).
    { apply filter_In. split.
      - apply list_elem_of_In, list_elem_of_lookup. eauto.
      - apply Z.ltb_lt. lia. }
    rewrite Hnil in Hin. destruct Hin.
  - intros ->.
    destruct (List.filter _ entries) as [|e l] eqn:Ef; [reflexivity|].
    assert (Hin : In e (List.filter
                          (fun entry =>
                             (0 <? default 0 (entry_value entry))%Z)
                          entries))
      by (rewrite Ef; left; reflexivity).
    apply filter_In in Hin as [Hin Hpos]. apply Z.ltb_lt in Hpos.
    apply Hmax in Hin. lia.
Qed.

(** ** The activity view *)

Lemma hourly_map_lookup entries k :
  hourly_map entries !! k
  = option_map (fun e => default 0%Z (entry_count e))
      (List.find (fun e => bool_decide (entry_hour e = k)) (rev entries)).
Proof.
  unfold hourly_map. induction entries as [|x l IH] using rev_ind.
  - apply lookup_empty.
  - rewrite fold_left_app, rev_app_distr. cbn [fold_left rev app List.find].
    destruct (bool_decide (entry_hour x = k)) eqn:E.
    + apply bool_decide_eq_true in E. subst k.
      rewrite lookup_insert_eq. reflexivity.
    + apply bool_decide_eq_false in E.
      rewrite lookup_insert_ne by exact E. exact IH.
Qed.

(** X29: the hourly list always has the 24 hours of the day, in order; the
    count of an hour is the value of the last cached entry for that hour,
    and 0 when there is none.  Entries for anything else are ignored. *)
Theorem hourly_all_hours (stats : Stats) :
  List.map (fun item => fst (fst item)) (hourly stats) = seqZ 0 24
  /\ forall hour label count,
       In (hour, label, count) (hourly stats) ->
       (0 <= hour < 24)%Z
       /\ label = (decimal (Z.to_N hour) ++ py ":00")%list
       /\ count
          = match
              List.find (fun e => bool_decide (entry_hour e = Some hour))
                (rev (default [] (stats_messages_per_hour stats)))
            with
            | Some e => default 0%Z (entry_count e)
            | None => 0%Z
            end.
Proof.
  unfold hourly. cbv zeta. split.
  - rewrite List.map_map. cbn [fst]. apply List.map_id.
  - intros hour label count Hin.
    apply in_map_iff in Hin as (h & [= <- <- <-] & Hh).
    apply list_elem_of_In, elem_of_seqZ in Hh.
    split; [lia|]. split; [reflexivity|].
    rewrite hourly_map_lookup. destruct (List.find _ _); reflexivity.
Qed.
